(** * pyasdf: the file engine ([asdf.py]), the schema bridge ([schema.py])
      and [pyfinf/userset.py], embedded and checked against the specification.

    Layout: the Python substrate (exceptions, a state-and-exception monad),
    then the embedded sources, module by module, then the theorems. *)

From Stdlib Require Import ZArith Ascii String List Lia.
From stdpp Require Import base option list strings gmap sets.

Local Open Scope string_scope.
Local Open Scope list_scope.
Set Warnings "-register-all,-clear-no-such-hyp".

(* ===================================================================== *)
(** ** Python substrate                                                   *)
(* ===================================================================== *)

Module Py.

(** The exception classes the embedded code raises or lets through. *)
Inductive exn :=
| ValueError (msg : string)
| IOError (msg : string)
| TypeError (msg : string)
| KeyError (msg : string)
| AttributeError (msg : string)
| ValidationError (msg : string)
| RuntimeError (msg : string).

Inductive result (A : Type) :=
| Ok (a : A)
| Raise (e : exn).
Arguments Ok {A} a.
Arguments Raise {A} e.

End Py.
Export Py.

(* ===================================================================== *)
(** ** pyfinf/userset.py                                                  *)
(* ===================================================================== *)

Module Userset.

(** Values a [UserSet] method takes or returns.  The elements of a set
    are hashable objects: [None] and the integers here, with [True] and
    [False] counting as [1] and [0] (they hash and compare equal). *)
Definition elem := option Z.

Inductive pyval :=
| PNone
| PBool (b : bool)
| PInt (z : Z)
| PSet (s : gset elem).

(** An instance is its [__dict__]. *)
Record instance := Instance { attrs : gmap string pyval }.

(** The names bound in the body of [class UserSet(object)], in source
    order.  The first one is spelled with three trailing underscores. *)
Inductive method :=
| m_init___ | m_len | m_contains | m_isdisjoint | m_issubset | m_leq | m_lt
| m_issuperset | m_geq | m_gt | m_union | m_or | m_intersection | m_and
| m_difference | m_sub | m_symmetric_difference | m_xor | m_copy
| m_update | m_ior | m_intersection_update | m_iand | m_difference_update
| m_isub | m_symmetric_difference_update | m_ixor | m_add | m_remove
| m_discard | m_pop | m_clear.

Definition UserSet_namespace : list (string * method) :=
  [ ("__init___", m_init___); ("__len__", m_len); ("__contains__", m_contains);
    ("isdisjoint", m_isdisjoint); ("issubset", m_issubset); ("__leq__", m_leq);
    ("__lt__", m_lt); ("issuperset", m_issuperset); ("__geq__", m_geq);
    ("__gt__", m_gt); ("union", m_union); ("__or__", m_or);
    ("intersection", m_intersection); ("__and__", m_and);
    ("difference", m_difference); ("__sub__", m_sub);
    ("symmetric_difference", m_symmetric_difference); ("__xor__", m_xor);
    ("copy", m_copy); ("update", m_update); ("__ior__", m_ior);
    ("intersection_update", m_intersection_update); ("__iand__", m_iand);
    ("difference_update", m_difference_update); ("__isub__", m_isub);
    ("symmetric_difference_update", m_symmetric_difference_update);
    ("__ixor__", m_ixor); ("add", m_add); ("remove", m_remove);
    ("discard", m_discard); ("pop", m_pop); ("clear", m_clear) ].

Fixpoint class_lookup (ns : list (string * method)) (name : string) : option method :=
  match ns with
  | [] => None
  | (n, m) :: ns' => if String.eqb n name then Some m else class_lookup ns' name
  end.

(** The signatures, [self] apart: how many positional arguments the
    function takes.  Python binds the arguments before the body runs
    and raises [TypeError] when their number does not fit. *)
Definition accepts (m : method) (n : nat) : bool :=
  match m with
  (* def __init___(self, data=None) *)
  | m_init___ => (n <=? 1)%nat
  (* def f(self) *)
  | m_len | m_copy | m_pop | m_clear => (n =? 0)%nat
  (* def f(self, *args) *)
  | m_union | m_intersection | m_difference | m_symmetric_difference
  | m_update | m_intersection_update | m_difference_update
  | m_symmetric_difference_update => true
  (* def f(self, x), def f(self, t), def f(self, elem) *)
  | m_contains | m_isdisjoint | m_issubset | m_leq | m_lt | m_issuperset
  | m_geq | m_gt | m_or | m_and | m_sub | m_xor | m_ior | m_iand | m_isub
  | m_ixor | m_add | m_remove | m_discard => (n =? 1)%nat
  end.

Definition wrong_arity : exn := TypeError "wrong number of arguments".

Definition no_attribute (name : string) : exn :=
  AttributeError ("'UserSet' object has no attribute '" +:+ name +:+ "'").

(** [self.<name>] for a data attribute: the instance dictionary, then the
    class (whose namespace holds functions only), then [AttributeError]. *)
Definition getattr (self : instance) (name : string) : result pyval :=
  match attrs self !! name with
  | Some v => Ok v
  | None => Raise (no_attribute name)
  end.

Definition setattr (self : instance) (name : string) (v : pyval) : instance :=
  Instance (<[name := v]> (attrs self)).

(** Argument decoding for the built-in [set] methods. *)
Fixpoint as_sets (args : list pyval) : result (list (gset elem)) :=
  match args with
  | [] => Ok []
  | PSet s :: rest =>
      match as_sets rest with Ok l => Ok (s :: l) | Raise e => Raise e end
  | _ :: _ => Raise (TypeError "object is not iterable")
  end.

Definition one_set (args : list pyval) : result (gset elem) :=
  match args with
  | [PSet s] => Ok s
  | [_] => Raise (TypeError "object is not iterable")
  | _ => Raise wrong_arity
  end.

(** The object as a member of a set; a set is not hashable. *)
Definition as_elem (v : pyval) : option elem :=
  match v with
  | PNone => Some None
  | PBool b => Some (Some (Z.b2z b))
  | PInt z => Some (Some z)
  | PSet _ => None
  end.

Definition of_elem (e : elem) : pyval :=
  match e with
  | None => PNone
  | Some z => PInt z
  end.

(** [set.add(x)] hashes [x]. *)
Definition one_hashable (args : list pyval) : result elem :=
  match args with
  | [x] =>
      match as_elem x with
      | Some e => Ok e
      | None => Raise (TypeError "unhashable type: 'set'")
      end
  | _ => Raise wrong_arity
  end.

(** [x in s], [s.remove(x)] and [s.discard(x)] look a set [x] up as a
    frozen set instead; no set here has one among its elements. *)
Definition one_key (args : list pyval) : result (option elem) :=
  match args with
  | [x] => Ok (as_elem x)
  | _ => Raise wrong_arity
  end.

Definition has_key (k : option elem) (data : gset elem) : bool :=
  match k with
  | Some e => bool_decide (e ∈ data)
  | None => false
  end.

Definition drop_key (k : option elem) (data : gset elem) : gset elem :=
  match k with
  | Some e => data ∖ {[e]}
  | None => data
  end.

Definition symdiff (a b : gset elem) : gset elem := (a ∖ b) ∪ (b ∖ a).
Definition proper_subset (a b : gset elem) : bool :=
  bool_decide (a ⊆ b) && negb (bool_decide (b ⊆ a)).

(** What the built-in [set] does once [self.data] has been fetched:
    the new value of the set object and the value returned. *)
Definition set_op (m : method) (data : gset elem) (args : list pyval)
  : gset elem * result pyval :=
  let pure (r : result pyval) := (data, r) in
  let with_sets (k : list (gset elem) -> gset elem * result pyval) :=
    match as_sets args with Ok l => k l | Raise e => (data, Raise e) end in
  let with_set (k : gset elem -> gset elem * result pyval) :=
    match one_set args with Ok s => k s | Raise e => (data, Raise e) end in
  let with_hashable (k : elem -> gset elem * result pyval) :=
    match one_hashable args with Ok z => k z | Raise e => (data, Raise e) end in
  let with_key (k : option elem -> gset elem * result pyval) :=
    match one_key args with Ok z => k z | Raise e => (data, Raise e) end in
  match m with
  | m_init___ => pure (Ok PNone)
  | m_len =>
      match args with
      | [] => pure (Ok (PInt (Z.of_nat (size data))))
      | _ => pure (Raise wrong_arity)
      end
  | m_contains => with_key (fun x => pure (Ok (PBool (has_key x data))))
  | m_isdisjoint => with_set (fun t => pure (Ok (PBool (bool_decide (data ## t)))))
  | m_issubset | m_leq => with_set (fun t => pure (Ok (PBool (bool_decide (data ⊆ t)))))
  | m_lt => with_set (fun t => pure (Ok (PBool (proper_subset data t))))
  | m_issuperset | m_geq => with_set (fun t => pure (Ok (PBool (bool_decide (t ⊆ data)))))
  | m_gt => with_set (fun t => pure (Ok (PBool (proper_subset t data))))
  | m_union => with_sets (fun l => pure (Ok (PSet (foldl (∪) data l))))
  | m_or => with_set (fun t => pure (Ok (PSet (data ∪ t))))
  | m_intersection => with_sets (fun l => pure (Ok (PSet (foldl (∩) data l))))
  | m_and => with_set (fun t => pure (Ok (PSet (data ∩ t))))
  | m_difference => with_sets (fun l => pure (Ok (PSet (foldl (fun a b => a ∖ b) data l))))
  | m_sub => with_set (fun t => pure (Ok (PSet (data ∖ t))))
  | m_symmetric_difference | m_xor => with_set (fun t => pure (Ok (PSet (symdiff data t))))
  | m_copy =>
      match args with
      | [] => pure (Ok (PSet data))
      | _ => pure (Raise wrong_arity)
      end
  | m_update => with_sets (fun l => (foldl (∪) data l, Ok PNone))
  | m_ior => with_set (fun t => (data ∪ t, Ok PNone))
  | m_intersection_update => with_sets (fun l => (foldl (∩) data l, Ok PNone))
  | m_iand => with_set (fun t => (data ∩ t, Ok PNone))
  | m_difference_update => with_sets (fun l => (foldl (fun a b => a ∖ b) data l, Ok PNone))
  | m_isub => with_set (fun t => (data ∖ t, Ok PNone))
  | m_symmetric_difference_update | m_ixor => with_set (fun t => (symdiff data t, Ok PNone))
  | m_add => with_hashable (fun x => ({[x]} ∪ data, Ok PNone))
  | m_remove =>
      with_key (fun x =>
        if has_key x data then (drop_key x data, Ok PNone)
        else pure (Raise (KeyError "element not in set")))
  | m_discard => with_key (fun x => (drop_key x data, Ok PNone))
  | m_pop =>
      match args, elements data with
      | [], x :: _ => (data ∖ {[x]}, Ok (of_elem x))
      | [], [] => pure (Raise (KeyError "pop from an empty set"))
      | _, _ => pure (Raise wrong_arity)
      end
  | m_clear =>
      match args with
      | [] => (∅, Ok PNone)
      | _ => pure (Raise wrong_arity)
      end
  end.

(** The same bodies when [self.data] is not a set but [None], a bool or
    an integer (Python 3).  [len] and [in] are refused; the comparisons
    and the operators are those of the integers, where both sides are
    integers; a method looked up by name is missing on such an object.
    The value of the expression, before the in-place forms store it. *)
Definition as_int (v : pyval) : option Z :=
  match v with
  | PBool b => Some (Z.b2z b)
  | PInt z => Some z
  | _ => None
  end.

Definition unsupported : exn := TypeError "unsupported operand type(s)".

Definition int_compare (cmp : Z -> Z -> bool) (d t : pyval) : result pyval :=
  match as_int d, as_int t with
  | Some x, Some y => Ok (PBool (cmp x y))
  | _, _ => Raise unsupported
  end.

(** [|], [&] and [^] keep two bools a bool. *)
Definition int_bitwise (on_bool : bool -> bool -> bool) (on_int : Z -> Z -> Z)
           (d t : pyval) : result pyval :=
  match d, t with
  | PBool x, PBool y => Ok (PBool (on_bool x y))
  | _, _ =>
      match as_int d, as_int t with
      | Some x, Some y => Ok (PInt (on_int x y))
      | _, _ => Raise unsupported
      end
  end.

Definition int_minus (d t : pyval) : result pyval :=
  match as_int d, as_int t with
  | Some x, Some y => Ok (PInt (x - y))
  | _, _ => Raise unsupported
  end.

Definition one_arg (args : list pyval) (k : pyval -> result pyval) : result pyval :=
  match args with
  | [t] => k t
  | _ => Raise wrong_arity
  end.

Definition other_op (m : method) (self : instance) (d : pyval) (args : list pyval)
  : instance * result pyval :=
  let pure (r : result pyval) := (self, r) in
  let in_place (r : result pyval) :=
    match r with
    | Ok v => (setattr self "data" v, Ok PNone)
    | Raise e => (self, Raise e)
    end in
  match m with
  | m_init___ => pure (Ok PNone)
  | m_len => pure (Raise (TypeError "object has no len()"))
  | m_contains => pure (Raise (TypeError "argument is not iterable"))
  | m_leq => pure (one_arg args (int_compare Z.leb d))
  | m_lt => pure (one_arg args (int_compare Z.ltb d))
  | m_geq => pure (one_arg args (int_compare Z.geb d))
  | m_gt => pure (one_arg args (int_compare Z.gtb d))
  | m_or => pure (one_arg args (int_bitwise orb Z.lor d))
  | m_and => pure (one_arg args (int_bitwise andb Z.land d))
  | m_sub => pure (one_arg args (int_minus d))
  | m_xor => pure (one_arg args (int_bitwise xorb Z.lxor d))
  | m_ior => in_place (one_arg args (int_bitwise orb Z.lor d))
  | m_iand => in_place (one_arg args (int_bitwise andb Z.land d))
  | m_isub => in_place (one_arg args (int_minus d))
  | m_ixor => in_place (one_arg args (int_bitwise xorb Z.lxor d))
  | m_isdisjoint | m_issubset | m_issuperset | m_union | m_intersection
  | m_difference | m_symmetric_difference | m_copy | m_update
  | m_intersection_update | m_difference_update
  | m_symmetric_difference_update | m_add | m_remove | m_discard | m_pop
  | m_clear => pure (Raise (AttributeError "object has no such attribute"))
  end.

(** [def __init___(self, data=None)]: the body that would bind
    [self.data], were it ever called. *)
Definition init___ (self : instance) (args : list pyval) : instance * result pyval :=
  match args with
  | [] | [PNone] => (setattr self "data" (PSet ∅), Ok PNone)
  | [d] => (setattr self "data" d, Ok PNone)
  | _ => (self, Raise wrong_arity)
  end.

(** Calling a method of the class on an instance: the arguments are
    bound first; then the body runs, and the body of every method other
    than the initializer starts by evaluating [self.data]. *)
Definition call (m : method) (self : instance) (args : list pyval)
  : instance * result pyval :=
  if negb (accepts m (length args)) then (self, Raise wrong_arity)
  else
    match m with
    | m_init___ => init___ self args
    | _ =>
        match getattr self "data" with
        | Raise e => (self, Raise e)
        | Ok (PSet data) =>
            let '(data', r) := set_op m data args in
            (setattr self "data" (PSet data'), r)
        | Ok d => other_op m self d args
        end
    end.

(** Instantiating [UserSet] with positional arguments [args]:
    [type.__call__] allocates the instance and runs
    the function bound to the name [__init__].  When the class binds
    none, [object]'s initializer runs: it binds nothing and rejects
    arguments. *)
Definition construct (args : list pyval) : result instance :=
  let fresh := Instance ∅ in
  match class_lookup UserSet_namespace "__init__" with
  | Some m =>
      match call m fresh args with
      | (self, Ok _) => Ok self
      | (_, Raise e) => Raise e
      end
  | None =>
      match args with
      | [] => Ok fresh
      | _ => Raise (TypeError "object() takes no parameters")
      end
  end.

End Userset.

(* ===================================================================== *)
(** ** pyasdf/schema.py                                                   *)
(* ===================================================================== *)

Module Schema.

(** *** Default filling and removal (the [properties] validators) *)

(** YAML/JSON values as Python holds them.  A mapping keeps its
    insertion order, so it is an association list. *)
Inductive value :=
| VNone
| VBool (b : bool)
| VInt (z : Z)
| VStr (s : string)
| VList (l : list value)
| VDict (d : list (string * value)).

Definition pydict := list (string * value).

(** [d.get(k)]: the first binding of [k]. *)
Fixpoint dict_get (k : string) (d : pydict) : option value :=
  match d with
  | [] => None
  | (k', v) :: d' => if String.eqb k' k then Some v else dict_get k d'
  end.

(** [k in d] *)
Definition dict_contains (k : string) (d : pydict) : bool :=
  match dict_get k d with Some _ => true | None => false end.

(** [del d[k]] *)
Fixpoint dict_del (k : string) (d : pydict) : pydict :=
  match d with
  | [] => []
  | (k', v) :: d' =>
      if String.eqb k' k then dict_del k d' else (k', v) :: dict_del k d'
  end.

(** [d.setdefault(k, v)]: binds [k] at the end when it is unbound. *)
Definition dict_setdefault (k : string) (v : value) (d : pydict) : pydict :=
  if dict_contains k d then d else d ++ [(k, v)].

(** Python's [==] on these values: [bool] is a subclass of [int], a
    sequence compares element-wise, a mapping compares as a set of
    bindings whatever the order, as [dict] does.  (Two [OrderedDict]s
    compare in order as well: [py_eq] is the coarser of the two, and
    holds wherever Python finds two of these values equal.) *)
Fixpoint py_eq (a b : value) {struct a} : bool :=
  match a, b with
  | VNone, VNone => true
  | VBool x, VBool y => Bool.eqb x y
  | VBool x, VInt y => Z.eqb (Z.b2z x) y
  | VInt x, VBool y => Z.eqb x (Z.b2z y)
  | VInt x, VInt y => Z.eqb x y
  | VStr x, VStr y => String.eqb x y
  | VList x, VList y =>
      (fix go (x y : list value) {struct x} : bool :=
         match x, y with
         | [], [] => true
         | a' :: x', b' :: y' => py_eq a' b' && go x' y'
         | _, _ => false
         end) x y
  | VDict x, VDict y =>
      Nat.eqb (length x) (length y) &&
      (fix go (x : pydict) {struct x} : bool :=
         match x with
         | [] => true
         | (k, v) :: x' =>
             match dict_get k y with
             | Some v' => py_eq v v' && go x'
             | None => false
             end
         end) x
  | _, _ => false
  end.

(** [x is not None] *)
Definition is_not_None (v : value) : bool :=
  match v with VNone => false | _ => true end.

(** [validator.is_type(instance, 'object')] *)
Definition is_object (v : value) : bool :=
  match v with VDict _ => true | _ => false end.

(** The loop of [validate_fill_default]:
    [if "default" in subschema: instance.setdefault(property, subschema["default"])]. *)
Definition fill_step (instance : pydict) (entry : string * pydict) : pydict :=
  let '(property, subschema) := entry in
  match dict_get "default" subschema with
  | Some dflt => dict_setdefault property dflt instance
  | None => instance
  end.

Definition fill_loop (properties : list (string * pydict)) (instance : pydict) : pydict :=
  foldl fill_step instance properties.

(** The loop of [validate_remove_default]:
    [if subschema.get("default", None) is not None:
       if instance.get(property, None) == subschema["default"]: del instance[property]]. *)
Definition remove_step (instance : pydict) (entry : string * pydict) : pydict :=
  let '(property, subschema) := entry in
  let dflt := default VNone (dict_get "default" subschema) in
  if is_not_None dflt then
    if py_eq (default VNone (dict_get property instance)) dflt
    then dict_del property instance
    else instance
  else instance.

Definition remove_loop (properties : list (string * pydict)) (instance : pydict) : pydict :=
  foldl remove_step instance properties.

Section Properties.
(** The stock [properties] validator of the JSON-schema library, which
    both functions delegate to after their loop: the errors it yields
    for the (already updated) instance.  It validates each bound value
    against its subschema with the validators in force, these two
    functions among them; what that changes inside a value that is a
    mapping is not followed here: the mapping returned holds the
    instance's own bindings as the loop leaves them. *)
Variable draft4_properties : list (string * pydict) -> value -> list string.

(** The instance after the call, and the errors yielded. *)
Definition validate_fill_default (properties : list (string * pydict))
           (instance : value) : value * list string :=
  match instance with
  | VDict d =>
      let d' := fill_loop properties d in
      (VDict d', draft4_properties properties (VDict d'))
  | _ => (instance, [])
  end.

Definition validate_remove_default (properties : list (string * pydict))
           (instance : value) : value * list string :=
  match instance with
  | VDict d =>
      let d' := remove_loop properties d in
      (VDict d', draft4_properties properties (VDict d'))
  | _ => (instance, [])
  end.
End Properties.

(** *** The validator's tree walk ([_create_validator]) *)

(** Python objects have identity and may refer to themselves, so a
    tagged tree is a store of nodes addressed by [id()]. *)
Definition oid := nat.

Inductive node :=
| NScalar (tag : option string) (v : value)
| NDict (tag : option string) (items : list (string * oid))
| NList (tag : option string) (items : list oid)
| NReference (uri : string).

Definition store := gmap oid node.

(** [tagged.get_tag(instance)] *)
Definition get_tag (n : node) : option string :=
  match n with
  | NScalar t _ | NDict t _ | NList t _ => t
  | NReference _ => None
  end.

(** [(isinstance(instance, dict) and '$ref' in instance) or
     isinstance(instance, reference.Reference)] *)
Definition looks_like_reference (n : node) : bool :=
  match n with
  | NDict _ items => bool_decide ("$ref" ∈ items.*1)
  | NReference _ => true
  | _ => false
  end.

(** [val for val in six.itervalues(instance)] for a mapping, the
    elements for a sequence. *)
Definition children (n : node) : list oid :=
  match n with
  | NDict _ items => items.*2
  | NList _ items => items
  | _ => []
  end.

(** A generator run to its end: the errors it yields, in order, and
    whether it returned ([true]) or the recursion limit was hit after
    those errors ([false]). *)
Definition run := (list string * bool)%type.

Definition finished (errs : list string) : run := (errs, true).
Definition overflow : run := ([], false).

(** [for x in a: yield x], then [b]. *)
Definition and_then (a b : run) : run :=
  if snd a then (fst a ++ fst b, snd b) else a.

(** [for val in l: for x in f(val): yield x] *)
Fixpoint for_each {A} (f : A -> run) (l : list A) : run :=
  match l with
  | [] => finished []
  | x :: l' => and_then (f x) (for_each f l')
  end.

Section Validator.
(** A loaded schema; [None] stands for a falsy one. *)
Variable schema : Type.
(** [self.ctx.tag_to_schema_resolver] *)
Variable tag_to_schema_resolver : string -> string.
(** [load_schema(schema_path, self.ctx.url_mapping)] *)
Variable load_schema : string -> option schema.
(** [self.orig_iter_errors]: the JSON-schema library's own validation
    of one instance against one schema.  Where a keyword has it validate
    a part of the instance against a part of the schema, the library
    calls [self.iter_errors(part, subschema)], which is the patched
    method: that call is the first argument here. *)
Variable orig_iter_errors :
  (oid -> schema -> run) -> store -> oid -> schema -> run.

(** Errors of the tag-driven schema of one node. *)
Definition tag_errors (descend : oid -> schema -> run)
           (h : store) (instance : oid) (n : node) : run :=
  match get_tag n with
  | Some tag =>
      let schema_path := tag_to_schema_resolver tag in
      if String.eqb schema_path tag then finished []
      else match load_schema schema_path with
           | Some s => orig_iter_errors descend h instance s
           | None => finished []
           end
  | None => finished []
  end.

(** [iter_errors(self, instance, _schema=None, _seen=set())].  [fuel]
    is what is left of the recursion limit, counted in nested calls of
    this method.  A call that the library makes passes no [_seen], which
    is then the default, the empty set.  An identity under which the
    store holds no object does not arise in Python; it yields nothing
    here. *)
Fixpoint iter_errors (fuel : nat) (h : store) (instance : oid)
         (_schema : option schema) (_seen : gset oid) : run :=
  match fuel with
  | O => overflow
  | S fuel' =>
      if bool_decide (instance ∈ _seen) then finished []
      else
        match h !! instance with
        | None => finished []
        | Some n =>
            if looks_like_reference n then finished []
            else
              let descend := fun val s => iter_errors fuel' h val (Some s) ∅ in
              match _schema with
              | None =>
                  let new_seen := _seen ∪ {[instance]} in
                  and_then
                    (tag_errors descend h instance n)
                    (for_each (fun val => iter_errors fuel' h val None new_seen)
                              (children n))
              | Some s => orig_iter_errors descend h instance s
              end
        end
  end.

(** [validator.validate(instance, _schema=(schema or None))]: raise
    the first error yielded.  [recursion_limit] is Python's, a fixed
    number. *)
Definition validate (recursion_limit : nat) (h : store) (instance : oid)
           (sch : option schema) : result unit :=
  match iter_errors recursion_limit h instance sch ∅ with
  | (e :: _, _) => Raise (ValidationError e)
  | ([], true) => Ok tt
  | ([], false) => Raise (RuntimeError "maximum recursion depth exceeded")
  end.
End Validator.

End Schema.

(* ===================================================================== *)
(** ** pyasdf/asdf.py                                                     *)
(* ===================================================================== *)

Module Asdf.

Definition bytes := string.

(** Modelled from the spec: [constants.ASDF_MAGIC] and
    [constants.BLOCK_MAGIC] ([pyasdf/constants.py] is not among the
    sources); section 6 of the specification gives both byte for byte. *)
Definition ASDF_MAGIC : bytes := "#ASDF ".
Definition BLOCK_MAGIC : bytes := String (ascii_of_nat 211) "BLK".

(** The pattern [b'\r?\n'] (an optional carriage return, then a line
    feed), as the bytes Python makes of that literal. *)
Definition NEWLINE_REGEX : string :=
  String (ascii_of_nat 13) (String "?"%char (String (ascii_of_nat 10) EmptyString)).

(** The messages of the errors the engine raises itself, under the
    names the specification gives them. *)
Definition NotAsdf : exn := ValueError "Does not appear to be a ASDF file.".
Definition GarbageAfterHeader : exn :=
  IOError "ASDF file appears to contain garbage after header.".
Definition NotOpen : exn :=
  ValueError "Can not update, since there is no associated file".
Definition NotWritable : exn :=
  IOError "Can not update, since associated file is read-only".
Definition NotSeekable : exn :=
  IOError "Can not update, since associated file is not seekable".

(** *** [_parse_header_line] *)

Definition is_digit (c : ascii) : bool :=
  (48 <=? nat_of_ascii c)%nat && (nat_of_ascii c <=? 57)%nat.

(** The longest run of digits at the head of [s], and what follows. *)
Fixpoint span_digits (s : bytes) : bytes * bytes :=
  match s with
  | String c s' =>
      if is_digit c then let '(d, r) := span_digits s' in (String c d, r)
      else (EmptyString, s)
  | EmptyString => (EmptyString, EmptyString)
  end.

(** [int(b"...")] on a run of digits. *)
Definition int_of_digits (d : bytes) : nat :=
  fold_left (fun acc c => (10 * acc + (nat_of_ascii c - 48))%nat)
            (list_ascii_of_string d) 0%nat.

Fixpoint strip_prefix (p s : bytes) : option bytes :=
  match p, s with
  | EmptyString, _ => Some s
  | String a p', String b s' =>
      if Ascii.eqb a b then strip_prefix p' s' else None
  | String _ _, EmptyString => None
  end.

(** [[0-9]+] at the head of [s]: the digits matched and the rest.
    Greedy matching never has to back off here, because what must
    follow a run of digits (a dot, or nothing) is not a digit. *)
Definition match_number (s : bytes) : option (nat * bytes) :=
  match span_digits s with
  | (EmptyString, _) => None
  | (d, r) => Some (int_of_digits d, r)
  end.

Definition match_dot (s : bytes) : option bytes :=
  match s with
  | String c r => if Ascii.eqb c "."%char then Some r else None
  | EmptyString => None
  end.

(** [re.match(ASDF_MAGIC + b'(?P<major>[0-9]+)\.(?P<minor>[0-9]+)\.(?P<micro>[0-9]+)', line)]:
    anchored at the start of [line] only. *)
Definition re_match_header (line : bytes) : option (nat * nat * nat) :=
  r0 ← strip_prefix ASDF_MAGIC line;
  '(major, r1) ← match_number r0;
  r2 ← match_dot r1;
  '(minor, r3) ← match_number r2;
  r4 ← match_dot r3;
  '(micro, _) ← match_number r4;
  Some (major, minor, micro).

Definition _parse_header_line (line : bytes) : result (nat * nat * nat) :=
  match re_match_header line with
  | None => Raise (ValueError "Does not appear to be a ASDF file.")
  | Some v => Ok v
  end.

(** *** State and effects *)

(** [pad_blocks]: a bool, or a float given as a fraction. *)
Inductive pad :=
| PadBool (b : bool)
| PadFactor (num : Z) (den : positive).

Definition pad_truthy (p : pad) : bool :=
  match p with
  | PadBool b => b
  | PadFactor num _ => negb (Z.eqb num 0)
  end.

Section State.
(** [tree]: trees, custom or tagged.  [fdh]: references to file
    objects.  [Env]: everything the engine reaches but does not own,
    namely the file objects themselves, the block manager, the
    extension registry. *)
Context {tree fdh Env : Type}.

(** The attributes [AsdfFile] itself assigns.  An outer [None] in the
    last three says that the attribute is not bound. *)
Record AsdfFile := mkAsdfFile {
  _fd : option fdh;
  _tree : tree;
  _all_array_storage : option (option string);
  _all_array_compression : option (option string);
  _auto_inline : option (option nat);
}.

Record World := mkWorld { self : AsdfFile; env : Env }.

(** A statement: it may change the world, and it returns or raises. *)
Definition M (A : Type) : Type := World -> World * result A.

Definition ret {A} (a : A) : M A := fun w => (w, Ok a).
Definition raise {A} (e : exn) : M A := fun w => (w, Raise e).
Definition bind {A B} (m : M A) (k : A -> M B) : M B :=
  fun w => match m w with
           | (w1, Ok a) => k a w1
           | (w1, Raise e) => (w1, Raise e)
           end.

(** [try: body finally: fin] *)
Definition try_finally {A} (body : M A) (fin : M unit) : M A :=
  fun w =>
    let '(w1, r) := body w in
    match fin w1 with
    | (w2, Ok _) => (w2, r)
    | (w2, Raise e) => (w2, Raise e)
    end.

(** [try: body except ValueError: handler] *)
Definition try_except_ValueError {A} (body : M A) (handler : M A) : M A :=
  fun w =>
    match body w with
    | (w1, Raise (ValueError _)) => handler w1
    | other => other
    end.

Definition get_self : M AsdfFile := fun w => (w, Ok (self w)).
Definition modify_self (f : AsdfFile -> AsdfFile) : M unit :=
  fun w => (mkWorld (f (self w)) (env w), Ok tt).

(** A collaborator that is handed the engine as its context: it may
    read the engine and change the environment. *)
Definition with_ctx {A} (f : AsdfFile -> Env -> Env * result A) : M A :=
  fun w => let '(e, r) := f (self w) (env w) in (mkWorld (self w) e, r).

(** A collaborator that only inspects. *)
Definition query {A} (f : AsdfFile -> Env -> result A) : M A :=
  fun w => (w, f (self w) (env w)).

Definition set_fd (v : option fdh) : AsdfFile -> AsdfFile :=
  fun s => mkAsdfFile v (_tree s) (_all_array_storage s)
                      (_all_array_compression s) (_auto_inline s).
Definition set_tree (v : tree) : AsdfFile -> AsdfFile :=
  fun s => mkAsdfFile (_fd s) v (_all_array_storage s)
                      (_all_array_compression s) (_auto_inline s).
Definition set_write_options (st co : option (option string))
           (ai : option (option nat)) : AsdfFile -> AsdfFile :=
  fun s => mkAsdfFile (_fd s) (_tree s) st co ai.
End State.

Arguments AsdfFile : clear implicits.
Arguments World : clear implicits.
Arguments M : clear implicits.

Declare Scope py_scope.
Delimit Scope py_scope with py.
Notation "x <- c1 ;; c2" := (bind c1 (fun x => c2))
  (at level 100, c1 at next level, right associativity) : py_scope.
Notation "c1 ;; c2" := (bind c1 (fun _ => c2))
  (at level 100, right associativity) : py_scope.

Local Open Scope py_scope.

(** A file argument: a path or URI, or a file-like object. *)
Inductive file_arg (fdh : Type) :=
| FilePath (p : string)
| FileObj (h : fdh).
Arguments FilePath {fdh} p.
Arguments FileObj {fdh} h.

(** What [_open_impl] returns: the engine itself, or (for testing) the
    raw YAML content. *)
Inductive opened :=
| OpenedFile
| YamlContent (content : bytes).

(** *** The collaborators of [asdf.py]

    The modules [generic_io], [block], [yamlutil], [reference],
    [treeutil], [versioning], [util], [constants] and [extension] are not
    among the sources: what [asdf.py] calls in them is taken as a
    parameter.  A call may change the world and may raise. *)
Record Collaborators {tree node fdh reader Env : Type} := {
  (* generic_io *)
  get_file : file_arg fdh -> string -> option string -> M tree fdh Env fdh;
  fd_enter : fdh -> M tree fdh Env fdh;
  (* [__exit__]: told the exception in flight, answers whether to
     swallow it *)
  fd_exit : fdh -> option exn -> M tree fdh Env bool;
  fd_close : fdh -> M tree fdh Env unit;
  fd_writable : fdh -> M tree fdh Env bool;
  fd_seekable : fdh -> M tree fdh Env bool;
  fd_seek : fdh -> nat -> M tree fdh Env unit;
  fd_tell : fdh -> M tree fdh Env nat;
  fd_truncate : fdh -> nat -> M tree fdh Env unit;
  fd_write : fdh -> bytes -> M tree fdh Env unit;
  fd_flush : fdh -> M tree fdh Env unit;
  fd_fast_forward : fdh -> nat -> M tree fdh Env unit;
  fd_block_size : fdh -> M tree fdh Env nat;
  fd_uri : fdh -> M tree fdh Env (option string);
  fd_read : fdh -> nat -> M tree fdh Env bytes;
  fd_read_until : fdh -> string -> nat -> string -> bool -> M tree fdh Env bytes;
  fd_reader_until :
    fdh -> string -> nat -> string -> bool -> bytes -> M tree fdh Env reader;
  reader_read : reader -> M tree fdh Env bytes;
  fd_seek_until : fdh -> bytes -> nat -> bool -> M tree fdh Env bool;
  (* io.BytesIO() *)
  BytesIO : M tree fdh Env fdh;
  (* constants *)
  MAX_BLOCKS_DIGITS : nat;
  YAML_END_MARKER_REGEX : string;
  (* versioning.VersionedMixin *)
  set_version : nat * nat * nat -> M tree fdh Env unit;
  version_string : M tree fdh Env string;
  (* util *)
  calculate_padding : nat -> pad -> nat -> nat;
  (* block.BlockManager and block.calculate_updated_layout *)
  blocks_finalize : M tree fdh Env unit;
  has_blocks_with_offset : M tree fdh Env bool;
  write_internal_blocks_serial : fdh -> pad -> M tree fdh Env unit;
  write_internal_blocks_random_access : fdh -> M tree fdh Env unit;
  write_external_blocks : option string -> pad -> M tree fdh Env unit;
  read_internal_blocks : fdh -> bool -> bool -> M tree fdh Env unit;
  (* self.blocks[node].array_storage *)
  block_array_storage : node -> M tree fdh Env string;
  calculate_updated_layout : nat -> pad -> nat -> M tree fdh Env bool;
  (* yamlutil *)
  dump_tree : tree -> fdh -> bool -> M tree fdh Env unit;
  load_tree : reader -> M tree fdh Env tree;
  (* the bridge is handed the engine as context: it registers arrays
     with the block manager and assigns no attribute of the engine *)
  custom_tree_to_tagged_tree :
    tree -> AsdfFile tree fdh -> Env -> Env * result tree;
  tagged_tree_to_custom_tree : tree -> M tree fdh Env tree;
  (* reference *)
  find_references : tree -> M tree fdh Env tree;
  (* schema.fill_defaults and schema.validate as the engine sees them:
     validation reads its context and raises or returns *)
  schema_fill_defaults : tree -> M tree fdh Env tree;
  schema_validate : tree -> AsdfFile tree fdh -> Env -> result unit;
  (* treeutil.iter_tree, and the operations on trees used directly *)
  iter_tree : tree -> list node;
  is_ndarray : node -> bool;
  tree_len : tree -> nat;
  empty_dict : tree;
  AsdfObject : tree -> result tree;
  (* extension type index: [has_hook], and [from_custom_type] followed
     by [getattr(tag, hookname, None)] *)
  has_hook : string -> M tree fdh Env bool;
  hook_of : node -> string -> option (node -> M tree fdh Env unit);
}.
Arguments Collaborators : clear implicits.

Section Engine.
Context {tree node fdh reader Env : Type}.
Context (C : Collaborators tree node fdh reader Env).

Local Abbreviation M := (Asdf.M tree fdh Env).

(** [with mgr as fd: body] *)
Definition with_file (mgr : M fdh) (body : fdh -> M unit) : M unit :=
  f <- mgr ;;
  fd <- fd_enter C f ;;
  fun w =>
    match body fd w with
    | (w1, Ok a) =>
        match fd_exit C f None w1 with
        | (w2, Ok _) => (w2, Ok a)
        | (w2, Raise e) => (w2, Raise e)
        end
    | (w1, Raise e) =>
        match fd_exit C f (Some e) w1 with
        | (w2, Ok true) => (w2, Ok tt)
        | (w2, Ok false) => (w2, Raise e)
        | (w2, Raise e') => (w2, Raise e')
        end
    end.

(** The [tree] property: getter and setter. *)
Definition tree_get : M tree := s <- get_self ;; ret (_tree s).

Definition tree_set (t : tree) : M unit :=
  match AsdfObject C t with
  | Raise e => raise e
  | Ok asdf_object =>
      tagged_tree <- with_ctx (custom_tree_to_tagged_tree C asdf_object) ;;
      query (schema_validate C tagged_tree) ;;
      modify_self (set_tree asdf_object)
  end.

(** [run_hook] *)
Fixpoint run_hook_loop (hookname : string) (nodes : list node) : M unit :=
  match nodes with
  | [] => ret tt
  | n :: rest =>
      match hook_of C n hookname with
      | Some hook => hook n ;; run_hook_loop hookname rest
      | None => run_hook_loop hookname rest
      end
  end.

Definition run_hook (hookname : string) : M unit :=
  h <- has_hook C hookname ;;
  if negb h then ret tt
  else s <- get_self ;; run_hook_loop hookname (iter_tree C (_tree s)).

(** [_open_impl], lines 351-361: the file is bound to the engine, the
    header line is read and parsed, the next four bytes are read. *)
Definition open_header (src : file_arg fdh) (uri : option string)
           (mode : string) : M (fdh * bytes) :=
  fd <- get_file C src mode uri ;;
  modify_self (set_fd (Some fd)) ;;
  header_line <-
    try_except_ValueError
      (fd_read_until C fd NEWLINE_REGEX 2 "newline" true)
      (raise (ValueError "Does not appear to be a ASDF file.")) ;;
  match _parse_header_line header_line with
  | Raise e => raise e
  | Ok v =>
      set_version C v ;;
      yaml_token <- fd_read C fd 4 ;;
      ret (fd, yaml_token)
  end.

(** [_open_impl], lines 388-401, for [_get_yaml_content=False]. *)
Definition open_finish (fd : fdh) (validate_checksums fill_defaults : bool)
           (tree0 : tree) (has_blocks : bool) : M opened :=
  (if has_blocks then read_internal_blocks C fd true validate_checksums
   else ret tt) ;;
  tree1 <- find_references C tree0 ;;
  tree2 <- (if fill_defaults then schema_fill_defaults C tree1 else ret tree1) ;;
  query (schema_validate C tree2) ;;
  tree3 <- tagged_tree_to_custom_tree C tree2 ;;
  modify_self (set_tree tree3) ;;
  run_hook "post_read" ;;
  ret OpenedFile.

(** [_open_impl], lines 362-386: the dispatch on the token. *)
Definition open_dispatch (fd : fdh) (validate_checksums fill_defaults : bool)
           (_get_yaml_content : bool) (yaml_token : bytes) : M opened :=
  let finish (yaml_content : bytes) (tree0 : tree) (has_blocks : bool) : M opened :=
    if _get_yaml_content then fd_close C fd ;; ret (YamlContent yaml_content)
    else open_finish fd validate_checksums fill_defaults tree0 has_blocks in
  if String.eqb yaml_token "%YAM" then
    rd <- fd_reader_until C fd (YAML_END_MARKER_REGEX C) 7
            "End of YAML marker" true yaml_token ;;
    if _get_yaml_content then
      yaml_content <- reader_read C rd ;;
      has_blocks <- fd_seek_until C fd BLOCK_MAGIC 4 true ;;
      finish yaml_content (empty_dict C) has_blocks
    else
      tree0 <- load_tree C rd ;;
      has_blocks <- fd_seek_until C fd BLOCK_MAGIC 4 true ;;
      finish EmptyString tree0 has_blocks
  else if String.eqb yaml_token BLOCK_MAGIC then
    finish EmptyString (empty_dict C) true
  else if negb (String.eqb yaml_token EmptyString) then
    raise (IOError "ASDF file appears to contain garbage after header.")
  else
    finish EmptyString (empty_dict C) false.

Definition _open_impl (src : file_arg fdh) (uri : option string) (mode : string)
           (validate_checksums fill_defaults _get_yaml_content : bool) : M opened :=
  ht <- open_header src uri mode ;;
  open_dispatch (fst ht) validate_checksums fill_defaults
                _get_yaml_content (snd ht).

(** [_write_tree] *)
Definition _write_tree (t : tree) (fd : fdh) (pad_blocks : pad)
           (remove_defaults : bool) : M unit :=
  fd_write C fd ASDF_MAGIC ;;
  vs <- version_string C ;;
  fd_write C fd vs ;;
  fd_write C fd (String (ascii_of_nat 10) EmptyString) ;;
  (if (0 <? tree_len C t)%nat then dump_tree C t fd remove_defaults else ret tt) ;;
  if pad_truthy pad_blocks then
    pos <- fd_tell C fd ;;
    bs <- fd_block_size C fd ;;
    fd_fast_forward C fd (calculate_padding C pos pad_blocks bs)
  else ret tt.

(** [_pre_write] *)
Definition _pre_write (fd : fdh) (all_array_storage all_array_compression : option string)
           (auto_inline : option nat) : M unit :=
  modify_self (set_write_options (Some all_array_storage)
                                 (Some all_array_compression)
                                 (Some auto_inline)) ;;
  s <- get_self ;;
  (if (0 <? tree_len C (_tree s))%nat then run_hook "pre_write" else ret tt) ;;
  blocks_finalize C.

(** [_serial_write] *)
Definition _serial_write (fd : fdh) (pad_blocks : pad) (remove_defaults : bool) : M unit :=
  s <- get_self ;;
  _write_tree (_tree s) fd pad_blocks remove_defaults ;;
  write_internal_blocks_serial C fd pad_blocks ;;
  uri <- fd_uri C fd ;;
  write_external_blocks C uri pad_blocks.

(** [_random_write] *)
Definition _random_write (fd : fdh) (pad_blocks : pad) (remove_defaults : bool) : M unit :=
  s <- get_self ;;
  _write_tree (_tree s) fd (PadBool false) remove_defaults ;;
  write_internal_blocks_random_access C fd ;;
  uri <- fd_uri C fd ;;
  write_external_blocks C uri pad_blocks.

(** [_post_write] *)
Definition _post_write (fd : fdh) : M unit :=
  s <- get_self ;;
  (if (0 <? tree_len C (_tree s))%nat then run_hook "post_write" else ret tt) ;;
  modify_self (set_write_options None None None).

(** [write_to] *)
Definition write_to (dst : file_arg fdh)
           (all_array_storage all_array_compression : option string)
           (auto_inline : option nat) (pad_blocks : pad)
           (remove_defaults : bool) : M unit :=
  s <- get_self ;;
  let original_fd := _fd s in
  try_finally
    (with_file (get_file C dst "w" None) (fun fd =>
       modify_self (set_fd (Some fd)) ;;
       _pre_write fd all_array_storage all_array_compression auto_inline ;;
       try_finally
         (_serial_write fd pad_blocks remove_defaults ;; fd_flush C fd)
         (_post_write fd)))
    (modify_self (set_fd original_fd)).

(** [update], lines 588-591: the references counted. *)
Fixpoint count_array_refs (nodes : list node) (array_ref_count : nat) : M nat :=
  match nodes with
  | [] => ret array_ref_count
  | n :: rest =>
      if is_ndarray C n then
        st <- block_array_storage C n ;;
        count_array_refs rest
          (if String.eqb st "internal" then S array_ref_count else array_ref_count)
      else count_array_refs rest array_ref_count
  end.

(** [update], lines 577-595: [serialized_tree_size]. *)
Definition serialized_tree_size (remove_defaults : bool) : M nat :=
  tree_serialized <- BytesIO C ;;
  s <- get_self ;;
  _write_tree (_tree s) tree_serialized (PadBool false) remove_defaults ;;
  s' <- get_self ;;
  array_ref_count <- count_array_refs (iter_tree C (_tree s')) 0 ;;
  pos <- fd_tell C tree_serialized ;;
  ret (pos + MAX_BLOCKS_DIGITS C * array_ref_count)%nat.

Definition serial_fallback (fd : fdh) (pad_blocks : pad) (remove_defaults : bool) : M unit :=
  _serial_write fd pad_blocks remove_defaults ;;
  pos <- fd_tell C fd ;;
  fd_truncate C fd pos.

(** [update] *)
Definition update (all_array_storage all_array_compression : option string)
           (auto_inline : option nat) (pad_blocks : pad)
           (remove_defaults : bool) : M unit :=
  s <- get_self ;;
  match _fd s with
  | None => raise (ValueError "Can not update, since there is no associated file")
  | Some fd =>
      wr <- fd_writable C fd ;;
      if negb wr then
        raise (IOError "Can not update, since associated file is read-only")
      else if bool_decide (all_array_storage = Some "external") then
        write_to (FileObj fd) all_array_storage None None (PadBool false) true ;;
        pos <- fd_tell C fd ;;
        fd_truncate C fd pos
      else
        sk <- fd_seekable C fd ;;
        if negb sk then
          raise (IOError "Can not update, since associated file is not seekable")
        else
          _pre_write fd all_array_storage all_array_compression auto_inline ;;
          try_finally
            (fd_seek C fd 0 ;;
             reuse <- has_blocks_with_offset C ;;
             if negb reuse then serial_fallback fd pad_blocks remove_defaults
             else
               size <- serialized_tree_size remove_defaults ;;
               bs <- fd_block_size C fd ;;
               fits <- calculate_updated_layout C size pad_blocks bs ;;
               if negb fits then serial_fallback fd pad_blocks remove_defaults
               else
                 fd_seek C fd 0 ;;
                 _random_write fd pad_blocks remove_defaults ;;
                 fd_flush C fd)
            (_post_write fd)
  end.

End Engine.

End Asdf.

(* ===================================================================== *)
(** ** A concrete environment                                             *)
(* ===================================================================== *)

(** Stand-ins for the collaborators, small enough to run: in-memory
    streams after section 4.1 of the specification, a block manager that
    keeps a list of blocks, a bridge that is the identity.  The theorems
    below hold for every choice of collaborators; this one serves to run
    the engine on concrete inputs. *)
Module Sample.

Import Asdf.
Local Open Scope py_scope.

(** Custom and tagged trees alike. *)
Inductive snode :=
| SScalar (v : Schema.value)
| SArray (array_id : nat)
| SList (l : list snode)
| SDict (d : list (string * snode)).

Record stream := mkStream {
  s_content : bytes;
  s_pos : nat;
  s_writable : bool;
  s_seekable : bool;
  s_uri : option string;
}.

Record sblock := mkBlock {
  b_array : nat;
  b_storage : string;
  b_offset : option nat;
  b_payload : bytes;
}.

Record SEnv := mkEnv {
  streams : gmap nat stream;
  blocks : list sblock;
  version : nat * nat * nat;
}.

Abbreviation SM := (Asdf.M snode nat SEnv).
Abbreviation SWorld := (Asdf.World snode nat SEnv).

Definition env_query {A} (f : SEnv -> result A) : SM A :=
  fun w => (w, f (env w)).
Definition env_update (f : SEnv -> SEnv * result unit) : SM unit :=
  fun w => let '(e, r) := f (env w) in (mkWorld (self w) e, r).

Definition with_stream {A} (h : nat) (f : stream -> result A) : SM A :=
  env_query (fun e =>
    match streams e !! h with
    | Some s => f s
    | None => Raise (ValueError "I/O operation on closed file")
    end).

Definition update_stream (h : nat) (f : stream -> result stream) : SM unit :=
  env_update (fun e =>
    match streams e !! h with
    | Some s =>
        match f s with
        | Ok s' => (mkEnv (<[h := s']> (streams e)) (blocks e) (version e), Ok tt)
        | Raise x => (e, Raise x)
        end
    | None => (e, Raise (ValueError "I/O operation on closed file"))
    end).

(** Byte-string helpers. *)
Fixpoint take_bytes (n : nat) (s : bytes) : bytes :=
  match n, s with
  | S n', String c s' => String c (take_bytes n' s')
  | _, _ => EmptyString
  end.

Fixpoint drop_bytes (n : nat) (s : bytes) : bytes :=
  match n, s with
  | S n', String _ s' => drop_bytes n' s'
  | _, _ => s
  end.

Fixpoint zeros (n : nat) : bytes :=
  match n with
  | O => EmptyString
  | S n' => String (ascii_of_nat 0) (zeros n')
  end.

(** Writing [data] at offset [pos] of [content], past the end if need be. *)
Definition overwrite (content : bytes) (pos : nat) (data : bytes) : bytes :=
  let padded := content +:+ zeros (pos - String.length content) in
  take_bytes pos padded +:+ data +:+ drop_bytes (pos + String.length data) padded.

(** The index just past the first occurrence of [pat] in [s], if any. *)
Fixpoint find_after (pat s : bytes) : option nat :=
  match strip_prefix pat s with
  | Some _ => Some (String.length pat)
  | None =>
      match s with
      | String _ s' => S <$> find_after pat s'
      | EmptyString => None
      end
  end.

Definition LF : bytes := String (ascii_of_nat 10) EmptyString.
Definition YAML_END : bytes := LF +:+ "..." +:+ LF.

Definition s_rest (s : stream) : bytes := drop_bytes (s_pos s) (s_content s).
Definition s_advance (s : stream) (n : nat) : stream :=
  mkStream (s_content s) (s_pos s + n) (s_writable s) (s_seekable s) (s_uri s).

(** Read up to and including the first occurrence of [pat]. *)
Definition read_through (h : nat) (pat : bytes) (what : string) : SM bytes :=
  r <- with_stream h (fun s =>
         match find_after pat (s_rest s) with
         | Some n => Ok (take_bytes n (s_rest s))
         | None => Raise (ValueError (what +:+ " not found"))
         end) ;;
  update_stream h (fun s => Ok (s_advance s (String.length r))) ;;
  ret r.

Definition sample_read (h : nat) (n : nat) : SM bytes :=
  r <- with_stream h (fun s => Ok (take_bytes n (s_rest s))) ;;
  update_stream h (fun s => Ok (s_advance s (String.length r))) ;;
  ret r.

Definition sample_write (h : nat) (data : bytes) : SM unit :=
  update_stream h (fun s =>
    if s_writable s then
      Ok (mkStream (overwrite (s_content s) (s_pos s) data)
                   (s_pos s + String.length data)
                   (s_writable s) (s_seekable s) (s_uri s))
    else Raise (IOError "File not open for writing")).

Definition sample_seek (h : nat) (n : nat) : SM unit :=
  update_stream h (fun s =>
    if s_seekable s then
      Ok (mkStream (s_content s) n (s_writable s) (s_seekable s) (s_uri s))
    else Raise (IOError "underlying stream is not seekable")).

Definition sample_truncate (h : nat) (n : nat) : SM unit :=
  update_stream h (fun s =>
    if s_writable s then
      Ok (mkStream (take_bytes n (s_content s +:+ zeros (n - String.length (s_content s))))
                   (s_pos s) (s_writable s) (s_seekable s) (s_uri s))
    else Raise (IOError "File not open for writing")).

Definition fresh_handle (e : SEnv) : nat :=
  S (foldr Nat.max 0%nat (elements (dom (streams e)))).

Definition new_stream (s : stream) : SM nat :=
  fun w =>
    let h := fresh_handle (env w) in
    (mkWorld (self w)
             (mkEnv (<[h := s]> (streams (env w))) (blocks (env w)) (version (env w))),
     Ok h).

Definition sample_get_file (src : file_arg nat) (mode : string) (uri : option string)
  : SM nat :=
  match src with
  | FileObj h => with_stream h (fun _ => Ok h)
  | FilePath p =>
      if String.eqb mode "w"
      then new_stream (mkStream EmptyString 0 true true (Some p))
      else raise (IOError "No such file or directory")
  end.

Definition sample_seek_until (h : nat) (pat : bytes) : SM bool :=
  found <- with_stream h (fun s => Ok (find_after pat (s_rest s))) ;;
  match found with
  | Some n => update_stream h (fun s => Ok (s_advance s n)) ;; ret true
  | None =>
      update_stream h (fun s =>
        Ok (s_advance s (String.length (s_rest s)))) ;;
      ret false
  end.

(** Decimal printing, for the version string. *)
Definition digit_char (n : nat) : ascii := ascii_of_nat (48 + n).
Fixpoint decimal_aux (fuel n : nat) (acc : bytes) : bytes :=
  match fuel with
  | O => acc
  | S fuel' =>
      let acc' := String (digit_char (n mod 10)) acc in
      if (n <? 10)%nat then acc' else decimal_aux fuel' (n / 10) acc'
  end.
Definition decimal (n : nat) : bytes := decimal_aux (S n) n EmptyString.

Definition sample_version_string : SM string :=
  env_query (fun e =>
    let '(a, b, c) := version e in
    Ok (decimal a +:+ "." +:+ decimal b +:+ "." +:+ decimal c)).

(** Blocks. *)
Definition set_blocks (f : list sblock -> list sblock) : SM unit :=
  env_update (fun e => (mkEnv (streams e) (f (blocks e)) (version e), Ok tt)).

Definition find_block (a : nat) (bs : list sblock) : option sblock :=
  List.find (fun b => Nat.eqb (b_array b) a) bs.

Definition sample_finalize : SM unit :=
  s <- get_self ;;
  match _all_array_storage s with
  | Some (Some st) =>
      set_blocks (map (fun b => mkBlock (b_array b) st (b_offset b) (b_payload b)))
  | _ => ret tt
  end.

Definition is_internal (b : sblock) : bool := String.eqb (b_storage b) "internal".
Definition is_external (b : sblock) : bool := String.eqb (b_storage b) "external".

Definition sample_has_blocks_with_offset : SM bool :=
  env_query (fun e =>
    Ok (existsb (fun b => is_internal b &&
                          match b_offset b with Some _ => true | None => false end)
                (blocks e))).

Fixpoint write_blocks_serial (h : nat) (bs : list sblock) : SM (list sblock) :=
  match bs with
  | [] => ret []
  | b :: rest =>
      if is_internal b then
        pos <- with_stream h (fun s => Ok (s_pos s)) ;;
        sample_write h (BLOCK_MAGIC +:+ b_payload b) ;;
        rest' <- write_blocks_serial h rest ;;
        ret (mkBlock (b_array b) (b_storage b) (Some pos) (b_payload b) :: rest')
      else
        rest' <- write_blocks_serial h rest ;;
        ret (b :: rest')
  end.

Definition sample_write_serial (h : nat) (p : pad) : SM unit :=
  bs <- env_query (fun e => Ok (blocks e)) ;;
  bs' <- write_blocks_serial h bs ;;
  set_blocks (fun _ => bs').

Fixpoint write_blocks_random (h : nat) (bs : list sblock) : SM unit :=
  match bs with
  | [] => ret tt
  | b :: rest =>
      match is_internal b, b_offset b with
      | true, Some off =>
          sample_seek h off ;;
          sample_write h (BLOCK_MAGIC +:+ b_payload b) ;;
          write_blocks_random h rest
      | true, None => raise (ValueError "block has no offset")
      | false, _ => write_blocks_random h rest
      end
  end.

Definition sample_write_external (uri : option string) (p : pad) : SM unit :=
  bs <- env_query (fun e => Ok (blocks e)) ;;
  if existsb is_external bs then
    match uri with
    | None =>
        raise (ValueError
          "Can't write external blocks, since URI of main file is unknown.")
    | Some _ => ret tt
    end
  else ret tt.

(** One block is taken to follow the magic just read. *)
Definition sample_read_blocks (h : nat) (past_magic validate_checksums : bool) : SM unit :=
  pos <- with_stream h (fun s => Ok (s_pos s)) ;;
  rest <- with_stream h (fun s => Ok (s_rest s)) ;;
  set_blocks (fun bs =>
    bs ++ [mkBlock (length bs) "internal" (Some (pos - 4)) rest]).

Definition sample_block_storage (n : snode) : SM string :=
  match n with
  | SArray a =>
      bs <- env_query (fun e => Ok (blocks e)) ;;
      match find_block a bs with
      | Some b => ret (b_storage b)
      | None =>
          set_blocks (fun bs => bs ++ [mkBlock a "internal" None EmptyString]) ;;
          ret "internal"
      end
  | _ => raise (KeyError "not an array")
  end.

(** The header must end before the first block that stays in place. *)
Definition sample_layout (size : nat) (p : pad) (block_size : nat) : SM bool :=
  env_query (fun e =>
    Ok (forallb (fun b =>
          match b_offset b with
          | Some off => negb (is_internal b) || (size <=? off)%nat
          | None => true
          end) (blocks e))).

(** Trees. *)
Fixpoint sample_iter_tree (t : snode) : list snode :=
  match t with
  | SList l => flat_map sample_iter_tree l ++ [t]
  | SDict d => flat_map (fun kv => sample_iter_tree (snd kv)) d ++ [t]
  | _ => [t]
  end.

Definition sample_is_ndarray (n : snode) : bool :=
  match n with SArray _ => true | _ => false end.

Definition sample_len (t : snode) : nat :=
  match t with
  | SList l => length l
  | SDict d => length d
  | _ => 0
  end.

Definition sample_AsdfObject (t : snode) : result snode :=
  match t with
  | SDict d => Ok (SDict d)
  | _ => Raise (TypeError "cannot convert dictionary update sequence")
  end.

(** The YAML written for a tree: its top-level keys, between the
    document markers. *)
Definition sample_yaml (t : snode) : bytes :=
  "%YAML 1.1" +:+ LF +:+ "---" +:+ LF +:+
  match t with
  | SDict d => foldr (fun kv acc => fst kv +:+ ": ~" +:+ LF +:+ acc) EmptyString d
  | _ => EmptyString
  end +:+ "..." +:+ LF.

(** The tree read back from YAML: the text itself, under one key. *)
Definition sample_load_tree (rd : bytes) : SM snode :=
  ret (SDict [("yaml", SScalar (Schema.VStr rd))]).

(** The bridge registers the arrays it meets and returns the tree as is. *)
Definition register_arrays (t : snode) (bs : list sblock) : list sblock :=
  foldl (fun acc n =>
           match n with
           | SArray a =>
               match find_block a acc with
               | Some _ => acc
               | None => acc ++ [mkBlock a "internal" None EmptyString]
               end
           | _ => acc
           end) bs (sample_iter_tree t).

Definition sample_bridge (t : snode) (s : AsdfFile snode nat) (e : SEnv)
  : SEnv * result snode :=
  (mkEnv (streams e) (register_arrays t (blocks e)) (version e), Ok t).

(** The schema in force here: the property [foo], when present at the top
    level, is a string. *)
Definition sample_validate (t : snode) (s : AsdfFile snode nat) (e : SEnv)
  : result unit :=
  match t with
  | SDict d =>
      match List.find (fun kv => String.eqb (fst kv) "foo") d with
      | Some (_, SScalar (Schema.VStr _)) | None => Ok tt
      | Some _ => Raise (ValidationError "value of 'foo' is not of type 'string'")
      end
  | _ => Ok tt
  end.

Definition collaborators : Collaborators snode snode nat bytes SEnv := {|
  get_file := sample_get_file;
  fd_enter := fun h => ret h;
  fd_exit := fun h _ => ret false;
  fd_close := fun h => ret tt;
  fd_writable := fun h => with_stream h (fun s => Ok (s_writable s));
  fd_seekable := fun h => with_stream h (fun s => Ok (s_seekable s));
  fd_seek := sample_seek;
  fd_tell := fun h => with_stream h (fun s => Ok (s_pos s));
  fd_truncate := sample_truncate;
  fd_write := sample_write;
  fd_flush := fun h => with_stream h (fun _ => Ok tt);
  fd_fast_forward := fun h n => update_stream h (fun s => Ok (s_advance s n));
  fd_block_size := fun h => with_stream h (fun _ => Ok 4096%nat);
  fd_uri := fun h => with_stream h (fun s => Ok (s_uri s));
  fd_read := sample_read;
  fd_read_until := fun h regex _ what _ =>
    if String.eqb regex NEWLINE_REGEX then read_through h LF what
    else raise (ValueError "unsupported pattern");
  fd_reader_until := fun h _ _ what _ initial_content =>
    r <- read_through h YAML_END what ;; ret (initial_content +:+ r);
  reader_read := fun rd => ret rd;
  fd_seek_until := fun h pat _ _ => sample_seek_until h pat;
  BytesIO := new_stream (mkStream EmptyString 0 true true None);
  MAX_BLOCKS_DIGITS := 6;
  YAML_END_MARKER_REGEX := "\r?\n\.\.\.((\r?\n)|$)";
  set_version := fun v =>
    env_update (fun e => (mkEnv (streams e) (blocks e) v, Ok tt));
  version_string := sample_version_string;
  calculate_padding := fun pos _ bs => (bs - pos mod bs)%nat;
  blocks_finalize := sample_finalize;
  has_blocks_with_offset := sample_has_blocks_with_offset;
  write_internal_blocks_serial := sample_write_serial;
  write_internal_blocks_random_access := fun h =>
    bs <- env_query (fun e => Ok (blocks e)) ;; write_blocks_random h bs;
  write_external_blocks := sample_write_external;
  read_internal_blocks := sample_read_blocks;
  block_array_storage := sample_block_storage;
  calculate_updated_layout := sample_layout;
  dump_tree := fun t h _ => sample_write h (sample_yaml t);
  load_tree := sample_load_tree;
  custom_tree_to_tagged_tree := sample_bridge;
  tagged_tree_to_custom_tree := fun t => ret t;
  find_references := fun t => ret t;
  schema_fill_defaults := fun t => ret t;
  schema_validate := sample_validate;
  iter_tree := sample_iter_tree;
  is_ndarray := sample_is_ndarray;
  tree_len := sample_len;
  empty_dict := SDict [];
  AsdfObject := sample_AsdfObject;
  has_hook := fun _ => ret false;
  hook_of := fun _ _ => None;
|}.

(** The engine [AsdfFile()] makes: no file, an empty tree. *)
Definition fresh_engine : AsdfFile snode nat :=
  mkAsdfFile None (SDict []) None None None.

(** A world holding the engine [s] and one stream, under handle 1. *)
Definition world_with (s : AsdfFile snode nat) (st : stream) (bs : list sblock) : SWorld :=
  mkWorld s (mkEnv {[ 1%nat := st ]} bs (0, 1, 0)%nat).

(** An in-memory stream holding [content], as [io.BytesIO(content)]. *)
Definition bytes_stream (content : bytes) : stream :=
  mkStream content 0 true true None.

End Sample.

(* ===================================================================== *)
(** ** Specification-side definitions                                     *)
(* ===================================================================== *)

(** What the specification says in its own words, to be compared with the
    embedded code. *)
Module Spec.

Import Asdf.
Local Open Scope py_scope.

(** Section 4.4 and section 6: a header line is [#ASDF ], three runs of
    digits separated by dots, then a line feed, with an optional carriage
    return before it. *)
Definition header_line_form (line : bytes) : bool :=
  match strip_prefix ASDF_MAGIC line with
  | None => false
  | Some r0 =>
      match span_digits r0 with
      | (EmptyString, _) => false
      | (_, r1) =>
          match match_dot r1 with
          | None => false
          | Some r2 =>
              match span_digits r2 with
              | (EmptyString, _) => false
              | (_, r3) =>
                  match match_dot r3 with
                  | None => false
                  | Some r4 =>
                      match span_digits r4 with
                      | (EmptyString, _) => false
                      | (_, r5) =>
                          String.eqb r5 (String (ascii_of_nat 10) EmptyString)
                          || String.eqb r5 (String (ascii_of_nat 13)
                                              (String (ascii_of_nat 10) EmptyString))
                      end
                  end
              end
          end
      end
  end.

(** The first line of an input: up to and including the first line feed,
    or all of it when it holds none. *)
Fixpoint first_line (content : bytes) : bytes :=
  match content with
  | EmptyString => EmptyString
  | String c rest =>
      if Ascii.eqb c (ascii_of_nat 10) then String c EmptyString
      else String c (first_line rest)
  end.

Section WithCollaborators.
Context {tree node fdh reader Env : Type}.
Context (C : Collaborators tree node fdh reader Env).

(** Section 4.7: with external storage for all arrays, [update] is
    [write_to] on the same stream followed by a truncation where the
    write stopped. *)
Definition update_external (fd : fdh) : M tree fdh Env unit :=
  write_to C (FileObj fd) (Some "external") None None (PadBool false) true ;;
  pos <- fd_tell C fd ;;
  fd_truncate C fd pos.

(** Section 2, data flow on open: the tree is resolved, filled,
    validated, converted and installed. *)
Definition install (fill_defaults : bool) (tree0 : tree) : M tree fdh Env opened :=
  tree1 <- find_references C tree0 ;;
  tree2 <- (if fill_defaults then schema_fill_defaults C tree1 else ret tree1) ;;
  query (schema_validate C tree2) ;;
  tree3 <- tagged_tree_to_custom_tree C tree2 ;;
  modify_self (set_tree tree3) ;;
  run_hook C "post_read" ;;
  ret OpenedFile.

(** Section 4.4: what follows the header line decides. *)
Definition after_token (fd : fdh) (validate_checksums fill_defaults : bool)
           (token : bytes) : M tree fdh Env opened :=
  if bool_decide (token = "%YAM") then
    (* the YAML region, end marker included, then the blocks if any *)
    rd <- fd_reader_until C fd (YAML_END_MARKER_REGEX C) 7
            "End of YAML marker" true "%YAM" ;;
    tree0 <- load_tree C rd ;;
    has_blocks <- fd_seek_until C fd BLOCK_MAGIC 4 true ;;
    if has_blocks
    then read_internal_blocks C fd true validate_checksums ;;
         install fill_defaults tree0
    else install fill_defaults tree0
  else if bool_decide (token = BLOCK_MAGIC) then
    (* no YAML region: empty tree, blocks present *)
    read_internal_blocks C fd true validate_checksums ;;
    install fill_defaults (empty_dict C)
  else if bool_decide (token = EmptyString) then
    (* end of file: empty tree, no block read *)
    install fill_defaults (empty_dict C)
  else
    raise GarbageAfterHeader.

(** The collaborator calls [_open_impl] makes; [e] was raised by one of
    them in some state. *)
Definition raised_by_open_collaborator (e : exn) : Prop :=
  (exists src mode uri w, snd (get_file C src mode uri w) = Raise e) \/
  (exists fd w, snd (fd_read_until C fd NEWLINE_REGEX 2 "newline" true w) = Raise e) \/
  (exists v w, snd (set_version C v w) = Raise e) \/
  (exists fd w, snd (fd_read C fd 4 w) = Raise e) \/
  (exists fd tok w, snd (fd_reader_until C fd (YAML_END_MARKER_REGEX C) 7
                          "End of YAML marker" true tok w) = Raise e) \/
  (exists rd w, snd (reader_read C rd w) = Raise e) \/
  (exists rd w, snd (load_tree C rd w) = Raise e) \/
  (exists fd w, snd (fd_seek_until C fd BLOCK_MAGIC 4 true w) = Raise e) \/
  (exists fd w, snd (fd_close C fd w) = Raise e) \/
  (exists fd vc w, snd (read_internal_blocks C fd true vc w) = Raise e) \/
  (exists t w, snd (find_references C t w) = Raise e) \/
  (exists t w, snd (schema_fill_defaults C t w) = Raise e) \/
  (exists t s en, schema_validate C t s en = Raise e) \/
  (exists t w, snd (tagged_tree_to_custom_tree C t w) = Raise e) \/
  (exists w, snd (has_hook C "post_read" w) = Raise e) \/
  (exists n hook w, hook_of C n "post_read" = Some hook /\ snd (hook n w) = Raise e).

(** The same collaborators with another planner: the test for reusable
    blocks, the layout computation and the random-access block writer. *)
Definition with_planner
           (reusable : M tree fdh Env bool)
           (layout : nat -> pad -> nat -> M tree fdh Env bool)
           (random_access : fdh -> M tree fdh Env unit)
  : Collaborators tree node fdh reader Env := {|
  get_file := get_file C;
  fd_enter := fd_enter C;
  fd_exit := fd_exit C;
  fd_close := fd_close C;
  fd_writable := fd_writable C;
  fd_seekable := fd_seekable C;
  fd_seek := fd_seek C;
  fd_tell := fd_tell C;
  fd_truncate := fd_truncate C;
  fd_write := fd_write C;
  fd_flush := fd_flush C;
  fd_fast_forward := fd_fast_forward C;
  fd_block_size := fd_block_size C;
  fd_uri := fd_uri C;
  fd_read := fd_read C;
  fd_read_until := fd_read_until C;
  fd_reader_until := fd_reader_until C;
  reader_read := reader_read C;
  fd_seek_until := fd_seek_until C;
  BytesIO := BytesIO C;
  MAX_BLOCKS_DIGITS := MAX_BLOCKS_DIGITS C;
  YAML_END_MARKER_REGEX := YAML_END_MARKER_REGEX C;
  set_version := set_version C;
  version_string := version_string C;
  calculate_padding := calculate_padding C;
  blocks_finalize := blocks_finalize C;
  has_blocks_with_offset := reusable;
  write_internal_blocks_serial := write_internal_blocks_serial C;
  write_internal_blocks_random_access := random_access;
  write_external_blocks := write_external_blocks C;
  read_internal_blocks := read_internal_blocks C;
  block_array_storage := block_array_storage C;
  calculate_updated_layout := layout;
  dump_tree := dump_tree C;
  load_tree := load_tree C;
  custom_tree_to_tagged_tree := custom_tree_to_tagged_tree C;
  tagged_tree_to_custom_tree := tagged_tree_to_custom_tree C;
  find_references := find_references C;
  schema_fill_defaults := schema_fill_defaults C;
  schema_validate := schema_validate C;
  iter_tree := iter_tree C;
  is_ndarray := is_ndarray C;
  tree_len := tree_len C;
  empty_dict := empty_dict C;
  AsdfObject := AsdfObject C;
  has_hook := has_hook C;
  hook_of := hook_of C;
|}.

(** Section 4.6, step 1: [R], the occurrences in the tree of arrays
    whose block is stored internally, [storage_of] telling the storage. *)
Definition internal_refs (storage_of : node -> string) (t : tree) : nat :=
  length (List.filter
            (fun n => is_ndarray C n && String.eqb (storage_of n) "internal")
            (iter_tree C t)).

End WithCollaborators.

(** Section 4.6, step 2, as written: [H]. *)
Definition claimed_budget (yaml_bytes R max_index_digits end_marker_size : nat) : nat :=
  (yaml_bytes + R * max_index_digits + end_marker_size)%nat.

(** [d.get(p)] on any value. *)
Definition value_get (p : string) (v : Schema.value) : option Schema.value :=
  match v with
  | Schema.VDict d => Schema.dict_get p d
  | _ => None
  end.

End Spec.

(* ===================================================================== *)
(** ** Concrete inputs                                                    *)
(* ===================================================================== *)

Module Cases.

Import Asdf Sample.

(** An engine opened on the stream under handle 1. *)
Definition engine_on (t : snode) : AsdfFile snode nat :=
  mkAsdfFile (Some 1%nat) t None None None.

(** Three occurrences of arrays: array 0 twice (stored internally, read
    from offset 4096), array 1 once (stored externally). *)
Definition two_arrays : snode :=
  SDict [("a", SArray 0); ("b", SArray 1); ("c", SScalar (Schema.VInt 7));
         ("d", SList [SArray 0])].

Definition two_blocks : list sblock :=
  [mkBlock 0 "internal" (Some 4096%nat) "payload";
   mkBlock 1 "external" None "other"].

Definition storage_of (n : snode) : string :=
  match n with
  | SArray 0 => "internal"
  | SArray 1 => "external"
  | _ => EmptyString
  end.

Definition reuse_world : SWorld :=
  world_with (engine_on two_arrays) (bytes_stream EmptyString) two_blocks.

(** Streams that cannot be written to, or cannot seek. *)
Definition read_only_stream : stream := mkStream EmptyString 0 false true None.
Definition pipe_stream : stream := mkStream EmptyString 0 true false None.

Definition closed_world : SWorld :=
  world_with fresh_engine (bytes_stream EmptyString) [].
Definition read_only_world : SWorld :=
  world_with (engine_on (SDict [])) read_only_stream [].
Definition pipe_world : SWorld :=
  world_with (engine_on (SDict [("a", SArray 0)])) pipe_stream [].
Definition writable_world : SWorld :=
  world_with (engine_on (SDict [("a", SArray 0)])) (bytes_stream EmptyString) [].

(** Inputs to [open]. *)
Definition input (content : bytes) : SWorld :=
  world_with fresh_engine (bytes_stream content) [].

Definition no_header : bytes := "What? This ain't no ASDF file".
Definition simple_line : bytes := "SIMPLE" +:+ LF.
Definition trailing_bytes : bytes := "#ASDF 0.1.0junk" +:+ LF.
Definition empty_file : bytes := "#ASDF 0.1.0" +:+ LF.
Definition junk_file : bytes := "#ASDF 0.1.0" +:+ LF +:+ "FOO".
Definition blocks_only : bytes := "#ASDF 0.1.0" +:+ LF +:+ BLOCK_MAGIC +:+ "data".
Definition yaml_only : bytes :=
  "#ASDF 0.1.0" +:+ LF +:+ "%YAML 1.1" +:+ LF +:+ "--- !core/asdf" +:+ LF +:+
  "foo: bar" +:+ LF +:+ "..." +:+ LF +:+ "XXXXXXXX".

Definition sample_open (content : bytes) : SWorld * result opened :=
  _open_impl collaborators (FileObj 1%nat) None "r" false true false (input content).

(** The steps of [sample_open] up to the token: the world once the file
    is bound to the engine, once the header line is read, once the
    version is set and once four bytes more are read. *)
Definition file_bound (content : bytes) : SWorld :=
  let w1 := fst (get_file collaborators (FileObj 1%nat) "r" None (input content)) in
  mkWorld (set_fd (Some 1%nat) (self w1)) (env w1).
Definition line_read (content : bytes) : SWorld :=
  fst (fd_read_until collaborators 1%nat NEWLINE_REGEX 2 "newline" true
                     (file_bound content)).
Definition version_set (content : bytes) : SWorld :=
  fst (set_version collaborators (0, 1, 0)%nat (line_read content)).
Definition token_read (content : bytes) : SWorld :=
  fst (fd_read collaborators 1%nat 4 (version_set content)).

(** Trees for the setter: one the schema accepts, one it rejects. *)
Definition good_tree : snode := SDict [("foo", SScalar (Schema.VStr "bar"))].
Definition bad_tree : snode :=
  SDict [("foo", SScalar (Schema.VInt 42)); ("a", SArray 5)].
Definition array_tree : snode :=
  SDict [("foo", SScalar (Schema.VStr "bar")); ("a", SArray 5)].
Definition stored_world : SWorld :=
  world_with (engine_on good_tree) (bytes_stream EmptyString) [].

(** A tagged tree that contains itself: a mapping whose key [me] is the
    mapping, and whose key [items] is a list holding the mapping again
    and a tagged scalar. *)
Definition cyclic_store : Schema.store :=
  {[ 0%nat := Schema.NDict None [("me", 0%nat); ("items", 1%nat)];
     1%nat := Schema.NList None [0%nat; 2%nat];
     2%nat := Schema.NScalar (Some "tag:example/number") (Schema.VInt 1) ]}.

(** A schema is a list of messages here: validation against it yields
    the first one, and validates what the instance holds against the
    rest, as a keyword such as [items] or [properties] does. *)
Definition toy_resolver (tag : string) : string := "schema:" +:+ tag.
Definition toy_load (path : string) : option (list string) := Some [path].
Definition toy_orig (descend : Schema.oid -> list string -> Schema.run)
           (h : Schema.store) (i : Schema.oid) (s : list string) : Schema.run :=
  match s with
  | [] => Schema.finished []
  | msg :: rest =>
      Schema.and_then
        (Schema.finished [msg])
        (Schema.for_each (fun val => descend val rest)
           (match h !! i with Some n => Schema.children n | None => [] end))
  end.

Definition toy_iter_errors :=
  Schema.iter_errors (list string) toy_resolver toy_load toy_orig.

(** A tagged sequence that holds itself, and a schema that refers to
    itself for the items of a sequence (a recursive [$ref]). *)
Definition self_list : Schema.store :=
  {[ 0%nat := Schema.NList (Some "tag:example/tree") [0%nat] ]}.

Definition recursive_load (path : string) : option unit := Some tt.
Definition recursive_orig (descend : Schema.oid -> unit -> Schema.run)
           (h : Schema.store) (i : Schema.oid) (s : unit) : Schema.run :=
  Schema.for_each (fun val => descend val s)
    (match h !! i with Some n => Schema.children n | None => [] end).

(** Properties with defaults: [unit] defaults to [None], [count] to 1. *)
Definition props : list (string * Schema.pydict) :=
  [("unit", [("default", Schema.VNone)]);
   ("count", [("type", Schema.VStr "integer"); ("default", Schema.VInt 1)]);
   ("name", [("type", Schema.VStr "string")])].

Definition no_errors (p : list (string * Schema.pydict)) (v : Schema.value)
  : list string := [].

Definition inst_count : Schema.value :=
  Schema.VDict [("count", Schema.VBool true); ("name", Schema.VStr "x")].

End Cases.

(* ===================================================================== *)
(** ** pyasdf/asdf.py: the engine's URI, its external files, closing      *)
(* ===================================================================== *)

Module External.

Import Asdf.
Local Open Scope py_scope.

(** What [open_external] returns: the engine itself, or another one. *)
Inductive target (ext : Type) :=
| Host
| Other (e : ext).
Arguments Host {ext}.
Arguments Other {ext} e.

(** The attributes of the engine that these methods use beside [_fd]:
    [_uri] and the cache [_external_asdf_by_uri].  They are kept next to
    [outer], where the file objects, the block manager and the other
    engines (referred to by [ext]) live. *)
Record Rest {ext Env0 : Type} := mkRest {
  _uri : option string;
  _external_asdf_by_uri : gmap string ext;
  outer : Env0;
}.
Arguments Rest : clear implicits.
Arguments mkRest {ext Env0} _ _ _.

(** What these methods call.  None of it is handed the engine, so none
    of it changes the engine's attributes: each call reads or changes
    [outer] only. *)
Record Callees {fdh ext Env0 : Type} := {
  (* util.get_base_uri: the URI without its fragment *)
  get_base_uri : string -> string;
  (* generic_io.resolve_uri(base, uri) *)
  resolve_uri_fn : option string -> string -> result string;
  (* the attribute [_uri] of a file object *)
  file_uri : fdh -> Env0 -> option string;
  (* self.open(resolved_uri, fill_defaults=...) *)
  open_file : string -> bool -> Env0 -> Env0 * result ext;
  (* fd.close() *)
  file_close : fdh -> Env0 -> Env0 * result unit;
  (* external.close() *)
  external_close : ext -> Env0 -> Env0 * result unit;
  (* self._blocks.close() *)
  blocks_close : Env0 -> Env0 * result unit;
}.
Arguments Callees : clear implicits.

Section Methods.
Context {tree fdh ext Env0 : Type}.
Context (K : Callees fdh ext Env0).

Local Abbreviation W := (World tree fdh (Rest ext Env0)).
Local Abbreviation M := (Asdf.M tree fdh (Rest ext Env0)).

Definition on_outer {A} (f : Env0 -> Env0 * result A) : M A :=
  fun w =>
    let '(o, r) := f (outer (env w)) in
    (mkWorld (self w)
             (mkRest (_uri (env w)) (_external_asdf_by_uri (env w)) o), r).

Definition set_cache (c : gmap string ext) : M unit :=
  fun w => (mkWorld (self w) (mkRest (_uri (env w)) c (outer (env w))), Ok tt).

(** The [uri] property. *)
Definition uri_of (w : W) : option string :=
  match _uri (env w) with
  | Some u => Some u
  | None =>
      match _fd (self w) with
      | Some fd => file_uri K fd (outer (env w))
      | None => None
      end
  end.

Definition uri : M (option string) := fun w => (w, Ok (uri_of w)).

(** [resolve_uri] *)
Definition resolve_uri (u : string) : M string :=
  base <- uri ;;
  match resolve_uri_fn K base u with
  | Ok r => ret r
  | Raise e => raise e
  end.

(** [open_external] *)
Definition open_external (u : string) (fill_defaults : bool) : M (target ext) :=
  let base_uri := get_base_uri K u in
  resolved_uri <- resolve_uri base_uri ;;
  own <- (if String.eqb resolved_uri EmptyString then ret None else uri) ;;
  if String.eqb resolved_uri EmptyString
     || bool_decide (own = Some resolved_uri)
  then ret Host
  else
    fun w =>
      match _external_asdf_by_uri (env w) !! resolved_uri with
      | Some asdffile => (w, Ok (Other asdffile))
      | None =>
          (asdffile <- on_outer (open_file K resolved_uri fill_defaults) ;;
           (fun w1 =>
              set_cache (<[resolved_uri := asdffile]>
                           (_external_asdf_by_uri (env w1))) w1) ;;
           ret (Other asdffile)) w
      end.

(** The loop of [close] over the cached engines. *)
Fixpoint close_all (l : list ext) : M unit :=
  match l with
  | [] => ret tt
  | e :: rest => on_outer (external_close K e) ;; close_all rest
  end.

(** [close].  A file object is taken to be truthy. *)
Definition close : M unit :=
  s <- get_self ;;
  (match _fd s with
   | Some fd =>
       on_outer (file_close K fd) ;;
       modify_self (set_fd None)
   | None => ret tt
   end) ;;
  (fun w => close_all (snd <$> map_to_list (_external_asdf_by_uri (env w))) w) ;;
  set_cache ∅ ;;
  on_outer (blocks_close K).

End Methods.

End External.

(* ===================================================================== *)
(** ** Auxiliary notions for the properties below                         *)
(* ===================================================================== *)

Module Aux.

Import Schema.

(** The default that the properties declare for [p], the first one when
    [p] is listed more than once. *)
Fixpoint declared_default (p : string) (properties : list (string * pydict))
  : option value :=
  match properties with
  | [] => None
  | (q, sub) :: rest =>
      if String.eqb q p then
        match dict_get "default" sub with
        | Some d => Some d
        | None => declared_default p rest
        end
      else declared_default p rest
  end.

(** The subschema declares a default other than [None] that [v] equals. *)
Definition equals_default (v : value) (sub : pydict) : bool :=
  match dict_get "default" sub with
  | Some dflt => is_not_None dflt && py_eq v dflt
  | None => false
  end.

Definition matches_default (p : string) (v : value)
           (properties : list (string * pydict)) : bool :=
  existsb (fun e => String.eqb (fst e) p && equals_default v (snd e)) properties.

(** A value that holds no mapping, at any depth.  On such a value
    [py_eq] is Python's [==] whatever the types of the mappings it is
    compared with, and the validators of a subschema change nothing. *)
Fixpoint mapping_free (v : value) : bool :=
  match v with
  | VDict _ => false
  | VList l => forallb mapping_free l
  | VNone | VBool _ | VInt _ | VStr _ => true
  end.

(** A mapping whose values hold no mapping. *)
Definition flat (d : pydict) : bool :=
  forallb (fun kv => mapping_free (snd kv)) d.

(** What is taken of the JSON-schema library: its [iter_errors] returns
    once the calls it makes to [self.iter_errors] return, and it makes
    them on parts of the schema in hand, which are of lower rank. *)
Definition descends_by_rank {schema : Type} (rank : schema -> nat)
           (orig_iter_errors : (oid -> schema -> run) -> store -> oid -> schema -> run)
  : Prop :=
  forall descend h i s,
    (forall i' s', rank s' < rank s -> snd (descend i' s') = true) ->
    snd (orig_iter_errors descend h i s) = true.

(** [R] bounds the rank of the schemas that tags load. *)
Definition ranks_below {schema : Type} (rank : schema -> nat)
           (load_schema : string -> option schema) (R : nat) : Prop :=
  forall path s, load_schema path = Some s -> rank s <= R.

(** A byte string of digits only. *)
Fixpoint all_digits (s : string) : bool :=
  match s with
  | EmptyString => true
  | String c s' => Asdf.is_digit c && all_digits s'
  end.

(** A byte string that does not start with a digit. *)
Definition no_leading_digit (s : string) : bool :=
  match s with
  | EmptyString => true
  | String c _ => negb (Asdf.is_digit c)
  end.

(** Method calls on one [UserSet], one after the other: the instance at
    the end and what each call returned or raised. *)
Fixpoint run_calls (ops : list (Userset.method * list Userset.pyval))
         (self : Userset.instance)
  : Userset.instance * list (result Userset.pyval) :=
  match ops with
  | [] => (self, [])
  | (m, args) :: rest =>
      let '(self1, r) := Userset.call m self args in
      let '(self2, rs) := run_calls rest self1 in
      (self2, r :: rs)
  end.

Definition is_AttributeError (r : result Userset.pyval) : bool :=
  match r with
  | Raise (AttributeError _) => true
  | _ => false
  end.

End Aux.

(* ===================================================================== *)
(** ** Concrete inputs for the engine's external files                    *)
(* ===================================================================== *)

Module ExternalCases.

Import Asdf External.

(** The environment is a log of what was opened and closed. *)
Definition log := list string.

(** The URI up to its fragment. *)
Fixpoint strip_fragment (u : string) : string :=
  match u with
  | EmptyString => EmptyString
  | String c rest =>
      if Ascii.eqb c "#"%char then EmptyString else String c (strip_fragment rest)
  end.

Definition callees : Callees nat nat log := {|
  get_base_uri := strip_fragment;
  resolve_uri_fn := fun base u =>
    if String.eqb u EmptyString then Ok (default EmptyString base) else Ok u;
  file_uri := fun fd _ => Some "main.asdf";
  open_file := fun r _ l =>
    if String.eqb r "missing.asdf"
    then (l, Raise (IOError "No such file or directory"))
    else (l ++ ["open " +:+ r], Ok (length l));
  file_close := fun _ l => (l ++ ["close file"], Ok tt);
  external_close := fun _ l => (l ++ ["close external"], Ok tt);
  blocks_close := fun l => (l ++ ["close blocks"], Ok tt);
|}.

(** The same, except that closing a file fails. *)
Definition callees_failing_close : Callees nat nat log := {|
  get_base_uri := get_base_uri callees;
  resolve_uri_fn := resolve_uri_fn callees;
  file_uri := file_uri callees;
  open_file := open_file callees;
  file_close := fun _ l => (l ++ ["close file"], Raise (IOError "Input/output error"));
  external_close := external_close callees;
  blocks_close := blocks_close callees;
|}.

(** An engine opened on [main.asdf], nothing cached. *)
Definition host : World unit nat (Rest nat log) :=
  mkWorld (mkAsdfFile (Some 1%nat) tt None None None) (mkRest None ∅ []).

(** The same after [flat.asdf] was opened through it. *)
Definition host_with_flat : World unit nat (Rest nat log) :=
  fst (open_external callees "flat.asdf#/data" true host).

End ExternalCases.

(* ===================================================================== *)
(** ** Theorems                                                           *)
(* ===================================================================== *)

Import Asdf.
Local Open Scope py_scope.

(** *** Stepping through statements *)

Section Steps.
Context {tree fdh Env : Type}.
Local Abbreviation M := (Asdf.M tree fdh Env).

Lemma bind_ok {A B} (m : M A) (k : A -> M B) w w1 a :
  m w = (w1, Ok a) -> bind m k w = k a w1.
Proof. intros H. unfold bind. now rewrite H. Qed.

Lemma bind_raise {A B} (m : M A) (k : A -> M B) w w1 e :
  m w = (w1, Raise e) -> bind m k w = (w1, Raise e).
Proof. intros H. unfold bind. now rewrite H. Qed.

Lemma bind_inv {A B} (m : M A) (k : A -> M B) w w' r :
  bind m k w = (w', r) ->
  (exists w1 a, m w = (w1, Ok a) /\ k a w1 = (w', r)) \/
  (exists e, m w = (w', Raise e) /\ r = Raise e).
Proof.
  unfold bind. destruct (m w) as [w1 [a|e]]; intros H.
  - left. eauto.
  - right. inversion H; subst. eauto.
Qed.

Lemma bind_ext {A B} (m : M A) (k1 k2 : A -> M B) w :
  (forall a w1, k1 a w1 = k2 a w1) -> bind m k1 w = bind m k2 w.
Proof. intros H. unfold bind. destruct (m w) as [w1 [a|e]]; auto. Qed.

Lemma try_finally_fd {A} (body : M A) (v : option fdh) w :
  _fd (self (fst (try_finally body (modify_self (set_fd v)) w))) = v.
Proof.
  unfold try_finally, modify_self. destruct (body w) as [w1 r]. reflexivity.
Qed.

End Steps.

Ltac step_ok H := rewrite (bind_ok _ _ _ _ _ H).
Ltac step_raise H := rewrite (bind_raise _ _ _ _ _ H).

(** *** [write_to] and the engine's file *)

Section EngineFacts.
Context {tree node fdh reader Env : Type}.
Context (C : Collaborators tree node fdh reader Env).
Local Abbreviation M := (Asdf.M tree fdh Env).

(** C7.  Whatever the destination and the options, and whether the write
    returns or raises at any step, after [write_to] the engine's [_fd]
    is the one it had before the call: the outer [finally] puts it back. *)
Theorem write_to_restores_fd
        (dst : file_arg fdh) (st co : option string) (ai : option nat)
        (p : pad) (rd : bool) (w : World tree fdh Env) :
  _fd (self (fst (write_to C dst st co ai p rd w))) = _fd (self w).
Proof.
  unfold write_to.
  rewrite (bind_ok get_self _ w w (self w)) by reflexivity.
  apply try_finally_fd.
Qed.

(** C6.  The tree setter converts the candidate to a tagged tree,
    validates that, and only then assigns.  When validation raises, the
    setter raises the same and no attribute of the engine has changed,
    the stored tree in particular; what the conversion had changed around
    the engine before validation ran (the block manager, where it
    registers arrays) stays as the conversion left it.  When validation
    accepts, the candidate is the stored tree. *)
Theorem tree_set_validates_first (t : tree) (w : World tree fdh Env) :
  (forall w' e, tree_set C t w = (w', Raise e) -> self w' = self w) /\
  (forall (obj tagged : tree) (e1 : Env),
      AsdfObject C t = Ok obj ->
      custom_tree_to_tagged_tree C obj (self w) (env w) = (e1, Ok tagged) ->
      (forall e,
          schema_validate C tagged (self w) e1 = Raise e ->
          tree_set C t w = (mkWorld (self w) e1, Raise e)) /\
      (schema_validate C tagged (self w) e1 = Ok tt ->
       tree_set C t w = (mkWorld (set_tree obj (self w)) e1, Ok tt))).
Proof.
  split.
  - intros w' e. unfold tree_set.
    destruct (AsdfObject C t) as [obj|e0].
    + unfold bind, with_ctx, query, modify_self.
      destruct (custom_tree_to_tagged_tree C obj (self w) (env w))
        as [e1 [tagged|e2]]; cbn [self env].
      * destruct (schema_validate C tagged (self w) e1) as [[]|e3];
          intros H; inversion H; subst; reflexivity.
      * intros H; inversion H; subst; reflexivity.
    + unfold raise. intros H; inversion H; subst; reflexivity.
  - intros obj tagged e1 Hobj Hbridge. unfold tree_set. rewrite Hobj.
    unfold bind, with_ctx, query, modify_self. rewrite Hbridge. cbn [self env].
    split.
    + intros e Hval. rewrite Hval. reflexivity.
    + intros Hval. rewrite Hval. reflexivity.
Qed.

(** C3.  On an open engine whose stream is writable, [update] with
    external storage for all arrays is [write_to] on that stream with
    that storage class and default options otherwise, followed by a
    truncation at the position reached.  The planner (the test for
    reusable blocks, the layout computation, the random-access writer)
    has no part in it: any planner gives the same run. *)
Theorem update_external_is_write_to_then_truncate
        (reusable : M bool) (layout : nat -> pad -> nat -> M bool)
        (random_access : fdh -> M unit)
        (co : option string) (ai : option nat) (p : pad) (rd : bool)
        (fd : fdh) (w w1 : World tree fdh Env) :
  _fd (self w) = Some fd ->
  fd_writable C fd w = (w1, Ok true) ->
  update (Spec.with_planner C reusable layout random_access)
         (Some "external") co ai p rd w
  = Spec.update_external C fd w1.
Proof.
  intros Hfd Hwr. unfold update.
  rewrite (bind_ok get_self _ w w (self w)) by reflexivity.
  rewrite Hfd. cbn [fd_writable Spec.with_planner].
  step_ok Hwr. cbn [negb].
  rewrite bool_decide_eq_true_2 by reflexivity.
  reflexivity.
Qed.

End EngineFacts.

(** *** Where the errors of [_open_impl] come from *)

Ltac blame H :=
  apply (f_equal snd) in H; simpl in H;
  right; right; unfold Spec.raised_by_open_collaborator;
  repeat match goal with
         | |- _ \/ _ => (left; solve [eauto 10]) || right
         end;
  solve [eauto 10].

Ltac split_bind H w1 a Hm :=
  apply bind_inv in H;
  destruct H as [(w1 & a & Hm & H) | (? & Hm & H)];
  [| first [discriminate H | injection H as <- | idtac]].

Section OpenErrors.
Context {tree node fdh reader Env : Type}.
Context (C : Collaborators tree node fdh reader Env).

Lemma run_hook_loop_origin nodes w w' e :
  run_hook_loop C "post_read" nodes w = (w', Raise e) ->
  exists n hook w0,
    hook_of C n "post_read" = Some hook /\ snd (hook n w0) = Raise e.
Proof.
  revert w. induction nodes as [|n rest IH]; intros w H; simpl in H.
  - discriminate.
  - destruct (hook_of C n "post_read") as [hook|] eqn:Hh.
    + split_bind H w1 a Hm.
      * eauto.
      * apply (f_equal snd) in Hm. simpl in Hm. eauto.
    + eauto.
Qed.

Lemma install_origin fill t w w' e :
  Spec.install C fill t w = (w', Raise e) ->
  e = NotAsdf \/ e = GarbageAfterHeader \/ Spec.raised_by_open_collaborator C e.
Proof.
  unfold Spec.install. intros H.
  split_bind H w1 t1 Hm; [|blame Hm].
  split_bind H w2 t2 Hm2.
  2:{ destruct fill; [blame Hm2 | discriminate]. }
  split_bind H w3 u Hm3.
  2:{ unfold query in Hm3. inversion Hm3 as [[Hw Hv]].
      right; right. unfold Spec.raised_by_open_collaborator.
      do 12 right. left. eauto. }
  split_bind H w4 t3 Hm4; [|blame Hm4].
  split_bind H w5 u5 Hm5; [|discriminate].
  split_bind H w6 u6 Hm6; [discriminate|].
  unfold run_hook in Hm6.
  split_bind Hm6 w7 h Hm7; [|blame Hm7].
  destruct h; simpl in Hm6; [|discriminate].
  split_bind Hm6 w8 s Hm8; [|discriminate].
  apply run_hook_loop_origin in Hm6. destruct Hm6 as (n & hook & w0 & Hh & Hr).
  right; right. unfold Spec.raised_by_open_collaborator.
  do 15 right. eauto.
Qed.

Lemma open_finish_is_install fd vc fill t hb :
  open_finish C fd vc fill t hb =
  ((if hb then read_internal_blocks C fd true vc else ret tt) ;;
   Spec.install C fill t).
Proof. reflexivity. Qed.

Lemma open_finish_origin fd vc fill t hb w w' e :
  open_finish C fd vc fill t hb w = (w', Raise e) ->
  e = NotAsdf \/ e = GarbageAfterHeader \/ Spec.raised_by_open_collaborator C e.
Proof.
  rewrite open_finish_is_install. intros H.
  split_bind H w1 u Hm.
  - eapply install_origin; eauto.
  - destruct hb; [blame Hm | discriminate].
Qed.

Lemma open_header_origin src uri mode w w' e :
  open_header C src uri mode w = (w', Raise e) ->
  e = NotAsdf \/ e = GarbageAfterHeader \/ Spec.raised_by_open_collaborator C e.
Proof.
  unfold open_header. intros H.
  split_bind H w1 fd Hm; [|blame Hm].
  split_bind H w2 u Hm2; [|discriminate].
  split_bind H w3 line Hm3.
  2:{ unfold try_except_ValueError in Hm3.
      destruct (fd_read_until C fd NEWLINE_REGEX 2 "newline" true w2)
        as [w4 [l|e4]] eqn:Hr; [discriminate|].
      destruct e4; try (inversion Hm3; subst; blame Hr).
      unfold raise in Hm3. inversion Hm3; subst. left. reflexivity. }
  destruct (_parse_header_line line) as [v|e5] eqn:Hp.
  - split_bind H w4 u4 Hm4; [|blame Hm4].
    split_bind H w5 tok Hm5; [discriminate|blame Hm5].
  - unfold raise in H. inversion H; subst.
    unfold _parse_header_line in Hp.
    destruct (re_match_header line); inversion Hp. left. reflexivity.
Qed.

Lemma open_dispatch_origin fd vc fill gyc tok w w' e :
  open_dispatch C fd vc fill gyc tok w = (w', Raise e) ->
  e = NotAsdf \/ e = GarbageAfterHeader \/ Spec.raised_by_open_collaborator C e.
Proof.
  unfold open_dispatch. intros H.
  destruct (String.eqb tok "%YAM").
  - split_bind H w1 rd Hm; [|blame Hm].
    destruct gyc.
    + split_bind H w2 yc Hm2; [|blame Hm2].
      split_bind H w3 hb Hm3; [|blame Hm3].
      split_bind H w4 u Hm4; [discriminate|blame Hm4].
    + split_bind H w2 t0 Hm2; [|blame Hm2].
      split_bind H w3 hb Hm3; [|blame Hm3].
      eapply open_finish_origin; eauto.
  - destruct (String.eqb tok BLOCK_MAGIC).
    + destruct gyc.
      * split_bind H w4 u Hm4; [discriminate|blame Hm4].
      * eapply open_finish_origin; eauto.
    + destruct (negb (String.eqb tok "")).
      * unfold raise in H. inversion H; subst. right; left. reflexivity.
      * destruct gyc.
        -- split_bind H w4 u Hm4; [discriminate|blame Hm4].
        -- eapply open_finish_origin; eauto.
Qed.

Lemma open_impl_origin src uri mode vc fill gyc w w' e :
  _open_impl C src uri mode vc fill gyc w = (w', Raise e) ->
  e = NotAsdf \/ e = GarbageAfterHeader \/ Spec.raised_by_open_collaborator C e.
Proof.
  unfold _open_impl. intros H.
  split_bind H w1 ht Hm.
  - eapply open_dispatch_origin; eauto.
  - eapply open_header_origin; eauto.
Qed.

End OpenErrors.

(** *** [update]: preconditions *)

Section UpdateFacts.
Context {tree node fdh reader Env : Type}.
Context (C : Collaborators tree node fdh reader Env).

(** C2, as the code has it.  [update] raises [NotOpen] when the engine
    has no file; failing that, [NotWritable] when the stream is read-only;
    failing that, and unless external storage was asked for all arrays
    (which goes to [write_to] without asking whether the stream seeks),
    [NotSeekable] when the stream is not seekable.  [_open_impl] raises
    [NotAsdf], [GarbageAfterHeader], or what a collaborator raised: it has
    no [NotSeekable] of its own. *)
Theorem update_preconditions
        (st co : option string) (ai : option nat) (p : pad) (rd : bool) :
  (forall w, _fd (self w) = None ->
             update C st co ai p rd w = (w, Raise NotOpen)) /\
  (forall w fd w1,
      _fd (self w) = Some fd ->
      fd_writable C fd w = (w1, Ok false) ->
      update C st co ai p rd w = (w1, Raise NotWritable)) /\
  (forall w fd w1 w2,
      _fd (self w) = Some fd ->
      fd_writable C fd w = (w1, Ok true) ->
      st <> Some "external" ->
      fd_seekable C fd w1 = (w2, Ok false) ->
      update C st co ai p rd w = (w2, Raise NotSeekable)) /\
  (forall src uri mode vc fill gyc w w' e,
      _open_impl C src uri mode vc fill gyc w = (w', Raise e) ->
      (e = NotAsdf \/ e = GarbageAfterHeader \/
       Spec.raised_by_open_collaborator C e) /\
      (e = NotSeekable -> Spec.raised_by_open_collaborator C e)).
Proof.
  repeat split.
  - intros w Hfd. unfold update.
    rewrite (bind_ok get_self _ w w (self w)) by reflexivity.
    now rewrite Hfd.
  - intros w fd w1 Hfd Hwr. unfold update.
    rewrite (bind_ok get_self _ w w (self w)) by reflexivity.
    rewrite Hfd. step_ok Hwr. reflexivity.
  - intros w fd w1 w2 Hfd Hwr Hst Hsk. unfold update.
    rewrite (bind_ok get_self _ w w (self w)) by reflexivity.
    rewrite Hfd. step_ok Hwr. cbn [negb].
    rewrite bool_decide_eq_false_2 by assumption.
    step_ok Hsk. reflexivity.
  - eapply open_impl_origin; eauto.
  - intros ->. apply open_impl_origin in H.
    destruct H as [H|[H|H]]; [discriminate H | discriminate H | exact H].
Qed.

(** *** [update]: the size of the serialized tree *)

Lemma count_array_refs_pure (storage_of : node -> string) nodes acc w :
  (forall n, In n nodes -> is_ndarray C n = true ->
             block_array_storage C n w = (w, Ok (storage_of n))) ->
  count_array_refs C nodes acc w =
  (w, Ok (acc + length (List.filter
                          (fun n => is_ndarray C n
                                    && String.eqb (storage_of n) "internal")
                          nodes))%nat).
Proof.
  revert acc. induction nodes as [|n rest IH]; intros acc H; simpl.
  - unfold ret. now rewrite Nat.add_0_r.
  - destruct (is_ndarray C n) eqn:Hnd; simpl.
    + rewrite (bind_ok _ _ _ _ _ (H n (or_introl eq_refl) Hnd)).
      rewrite IH by (intros; apply H; [now right | assumption]).
      destruct (String.eqb (storage_of n) "internal"); simpl;
        repeat f_equal; lia.
    + apply IH. intros; apply H; [now right | assumption].
Qed.

(** C1, as the code has it.  On the path of [update] that reuses blocks,
    the budget for the header and YAML is the position reached in the
    in-memory buffer once [_write_tree] has written the magic and version
    line and the YAML document into it, plus [MAX_BLOCKS_DIGITS] times
    the number of occurrences in the tree of arrays whose block is
    stored internally.  No term for the end marker is added. *)
Theorem serialized_tree_size_formula
        (rd : bool) (storage_of : node -> string)
        (w w1 w2 w3 : World tree fdh Env) (buf : fdh) (pos : nat) :
  BytesIO C w = (w1, Ok buf) ->
  _write_tree C (_tree (self w1)) buf (PadBool false) rd w1 = (w2, Ok tt) ->
  (forall n, In n (iter_tree C (_tree (self w2))) -> is_ndarray C n = true ->
             block_array_storage C n w2 = (w2, Ok (storage_of n))) ->
  fd_tell C buf w2 = (w3, Ok pos) ->
  serialized_tree_size C rd w =
  (w3, Ok (pos + MAX_BLOCKS_DIGITS C
                 * Spec.internal_refs C storage_of (_tree (self w2)))%nat).
Proof.
  intros Hbuf Hwrite Hstorage Htell. unfold serialized_tree_size.
  step_ok Hbuf.
  rewrite (bind_ok get_self _ w1 w1 (self w1)) by reflexivity.
  step_ok Hwrite.
  rewrite (bind_ok get_self _ w2 w2 (self w2)) by reflexivity.
  rewrite (bind_ok _ _ _ _ _
             (count_array_refs_pure storage_of _ 0%nat w2 Hstorage)).
  step_ok Htell. reflexivity.
Qed.

End UpdateFacts.

(** *** [_open_impl]: the header line and the token *)

Section OpenFacts.
Context {tree node fdh reader Env : Type}.
Context (C : Collaborators tree node fdh reader Env).

Lemma match_number_none s :
  match_number s = None -> exists r, span_digits s = (EmptyString, r).
Proof.
  unfold match_number. destruct (span_digits s) as [[|c d] r]; [eauto|discriminate].
Qed.

Lemma match_number_some s n r :
  match_number s = Some (n, r) ->
  exists c d, span_digits s = (String c d, r).
Proof.
  unfold match_number. destruct (span_digits s) as [[|c d] r']; [discriminate|].
  intros H; inversion H; subst. eauto.
Qed.

(** A line the code rejects is not of the form the specification gives. *)
Lemma rejected_line_not_of_form line :
  re_match_header line = None -> Spec.header_line_form line = false.
Proof.
  unfold re_match_header, Spec.header_line_form.
  destruct (strip_prefix ASDF_MAGIC line) as [r0|]; simpl; [|reflexivity].
  destruct (match_number r0) as [[major r1]|] eqn:H1; simpl.
  2:{ intros _. apply match_number_none in H1 as [r ->]. reflexivity. }
  apply match_number_some in H1 as (c1 & d1 & ->).
  destruct (match_dot r1) as [r2|]; simpl; [|reflexivity].
  destruct (match_number r2) as [[minor r3]|] eqn:H2; simpl.
  2:{ intros _. apply match_number_none in H2 as [r ->]. reflexivity. }
  apply match_number_some in H2 as (c2 & d2 & ->).
  destruct (match_dot r3) as [r4|]; simpl; [|reflexivity].
  destruct (match_number r4) as [[micro r5]|] eqn:H3; simpl.
  2:{ intros _. apply match_number_none in H3 as [r ->]. reflexivity. }
  discriminate.
Qed.

(** C5, as the code has it.  When the header line cannot be read (no
    line end in reach), or when it does not begin with [#ASDF ] and three
    runs of digits separated by dots, [_open_impl] raises [NotAsdf]; such
    a line is never of the form [#ASDF <major>.<minor>.<micro>].  What
    follows the third number on the line is not looked at. *)
Theorem open_rejects_bad_header
        (src : file_arg fdh) (uri : option string) (mode : string)
        (vc fill gyc : bool) (w w1 : World tree fdh Env) (fd : fdh) :
  get_file C src mode uri w = (w1, Ok fd) ->
  (forall w2 msg,
      fd_read_until C fd NEWLINE_REGEX 2 "newline" true
                    (mkWorld (set_fd (Some fd) (self w1)) (env w1))
        = (w2, Raise (ValueError msg)) ->
      _open_impl C src uri mode vc fill gyc w = (w2, Raise NotAsdf)) /\
  (forall w2 line,
      fd_read_until C fd NEWLINE_REGEX 2 "newline" true
                    (mkWorld (set_fd (Some fd) (self w1)) (env w1))
        = (w2, Ok line) ->
      re_match_header line = None ->
      Spec.header_line_form line = false /\
      _open_impl C src uri mode vc fill gyc w = (w2, Raise NotAsdf)).
Proof.
  intros Hget. split.
  - intros w2 msg Hread. unfold _open_impl, open_header.
    erewrite bind_raise; [reflexivity|].
    step_ok Hget.
    erewrite bind_ok by reflexivity.
    erewrite bind_raise; [reflexivity|].
    unfold try_except_ValueError. rewrite Hread. reflexivity.
  - intros w2 line Hread Hno. split; [now apply rejected_line_not_of_form|].
    unfold _open_impl, open_header.
    erewrite bind_raise; [reflexivity|].
    step_ok Hget.
    erewrite bind_ok by reflexivity.
    erewrite bind_ok by (unfold try_except_ValueError; rewrite Hread; reflexivity).
    unfold _parse_header_line. rewrite Hno. reflexivity.
Qed.

(** C4.  When the file is obtained, its header line read and parsed and
    the version set, what [fd.read(4)] returns next decides what
    [_open_impl] does from there: [%YAM] reads the YAML region through
    the end marker, loads it, looks for the block magic and reads the
    blocks when it is found; the block magic reads blocks and installs
    the empty tree; the empty token (end of file) installs the empty tree
    and reads no block; anything else raises [GarbageAfterHeader] with
    nothing more done. *)
Theorem open_token_dispatch
        (src : file_arg fdh) (uri : option string) (mode : string)
        (vc fill : bool) (w w1 w2 w3 w4 : World tree fdh Env) (fd : fdh)
        (line : bytes) (v : nat * nat * nat) (token : bytes) :
  get_file C src mode uri w = (w1, Ok fd) ->
  fd_read_until C fd NEWLINE_REGEX 2 "newline" true
                (mkWorld (set_fd (Some fd) (self w1)) (env w1)) = (w2, Ok line) ->
  _parse_header_line line = Ok v ->
  set_version C v w2 = (w3, Ok tt) ->
  fd_read C fd 4 w3 = (w4, Ok token) ->
  _open_impl C src uri mode vc fill false w
    = Spec.after_token C fd vc fill token w4 /\
  (token = BLOCK_MAGIC ->
   _open_impl C src uri mode vc fill false w
   = (read_internal_blocks C fd true vc ;;
      Spec.install C fill (empty_dict C)) w4) /\
  (token = EmptyString ->
   _open_impl C src uri mode vc fill false w
   = Spec.install C fill (empty_dict C) w4) /\
  (token <> "%YAM" -> token <> BLOCK_MAGIC -> token <> EmptyString ->
   _open_impl C src uri mode vc fill false w = (w4, Raise GarbageAfterHeader)).
Proof.
  intros Hget Hline Hparse Hver Hread.
  assert (open_header C src uri mode w = (w4, Ok (fd, token))) as Hh.
  { unfold open_header. step_ok Hget.
    erewrite bind_ok by reflexivity.
    erewrite bind_ok by (unfold try_except_ValueError; rewrite Hline; reflexivity).
    rewrite Hparse. step_ok Hver. step_ok Hread. reflexivity. }
  assert (_open_impl C src uri mode vc fill false w
          = Spec.after_token C fd vc fill token w4) as Heq.
  { unfold _open_impl. step_ok Hh. cbn [fst snd].
    unfold open_dispatch, Spec.after_token.
    destruct (String.eqb_spec token "%YAM") as [->|Hy].
    - rewrite bool_decide_eq_true_2 by reflexivity.
      apply bind_ext; intros rd w5.
      apply bind_ext; intros t0 w6.
      apply bind_ext; intros [|] w7; reflexivity.
    - rewrite bool_decide_eq_false_2 by assumption.
      destruct (String.eqb_spec token BLOCK_MAGIC) as [->|Hb].
      + rewrite bool_decide_eq_true_2 by reflexivity. reflexivity.
      + rewrite bool_decide_eq_false_2 by assumption.
        destruct (String.eqb_spec token "") as [->|He].
        * rewrite bool_decide_eq_true_2 by reflexivity. reflexivity.
        * rewrite bool_decide_eq_false_2 by assumption. reflexivity. }
  rewrite Heq. unfold Spec.after_token.
  split; [reflexivity|]. split; [|split].
  - intros ->. reflexivity.
  - intros ->. reflexivity.
  - intros Hy Hb He. now rewrite !bool_decide_eq_false_2 by assumption.
Qed.

End OpenFacts.

(** *** Default filling and removal *)

Section DefaultsFacts.
Import Schema.

Lemma dict_get_del p q d :
  dict_get p (dict_del q d) = if String.eqb q p then None else dict_get p d.
Proof.
  induction d as [|[k v] d IH]; simpl.
  - now destruct (String.eqb q p).
  - destruct (String.eqb_spec k q) as [->|Hkq].
    + rewrite IH. destruct (String.eqb_spec q p); reflexivity.
    + simpl. rewrite IH.
      destruct (String.eqb_spec k p) as [->|Hkp].
      * destruct (String.eqb_spec q p); [congruence|reflexivity].
      * reflexivity.
Qed.

Lemma dict_get_app p d d' :
  dict_get p (d ++ d') =
  match dict_get p d with Some v => Some v | None => dict_get p d' end.
Proof.
  induction d as [|[k v] d IH]; simpl; [reflexivity|].
  destruct (String.eqb k p); auto.
Qed.

Lemma dict_get_setdefault p q v d :
  dict_get p (dict_setdefault q v d) =
  match dict_get p d with
  | Some x => Some x
  | None => if String.eqb q p then Some v else None
  end.
Proof.
  unfold dict_setdefault, dict_contains.
  destruct (dict_get q d) as [x|] eqn:Hq.
  - destruct (dict_get p d) eqn:Hp; [reflexivity|].
    destruct (String.eqb_spec q p); [congruence|reflexivity].
  - rewrite dict_get_app. simpl. reflexivity.
Qed.

Lemma py_eq_None_l v : py_eq VNone v = true -> v = VNone.
Proof. destruct v; simpl; congruence. Qed.

(** One turn of the removal loop leaves the binding of [p] alone, or
    deletes it for the reason the code tests. *)
Lemma remove_step_get p d q sub :
  dict_get p (remove_step d (q, sub)) = dict_get p d \/
  (dict_get p (remove_step d (q, sub)) = None /\ q = p /\
   exists dflt v,
     dict_get "default" sub = Some dflt /\ dflt <> VNone /\
     dict_get p d = Some v /\ py_eq v dflt = true).
Proof.
  unfold remove_step.
  destruct (dict_get "default" sub) as [dflt|] eqn:Hd; simpl; [|now left].
  destruct (is_not_None dflt) eqn:Hnn; [|now left].
  destruct (py_eq (default VNone (dict_get q d)) dflt) eqn:Heq; [|now left].
  rewrite dict_get_del.
  destruct (String.eqb_spec q p) as [->|Hne]; [|now left].
  right. split; [reflexivity|]. split; [reflexivity|].
  assert (dflt <> VNone) as Hdn by (intros ->; discriminate).
  destruct (dict_get p d) as [v|] eqn:Hp; simpl in Heq.
  - exists dflt, v. auto.
  - apply py_eq_None_l in Heq. contradiction.
Qed.

Lemma remove_loop_deleted props : forall d p v,
  dict_get p d = Some v ->
  dict_get p (remove_loop props d) = None ->
  exists sub dflt,
    In (p, sub) props /\ dict_get "default" sub = Some dflt /\
    dflt <> VNone /\ py_eq v dflt = true.
Proof.
  unfold remove_loop.
  induction props as [|[q sub] rest IH]; intros d p v Hp Hgone; simpl in *.
  - congruence.
  - destruct (remove_step_get p d q sub) as [Hsame | (Hnone & -> & dflt & v' & Hd & Hn & Hv & Heq)].
    + rewrite Hp in Hsame.
      destruct (IH _ _ _ Hsame Hgone) as (sub' & dflt & Hin & H).
      exists sub', dflt. split; [now right | exact H].
    + exists sub, dflt. rewrite Hp in Hv. inversion Hv; subst.
      split; [now left | auto].
Qed.

Lemma remove_loop_kept props : forall d p,
  (forall sub, In (p, sub) props ->
     dict_get "default" sub = Some VNone \/ dict_get "default" sub = None) ->
  dict_get p (remove_loop props d) = dict_get p d.
Proof.
  unfold remove_loop.
  induction props as [|[q sub] rest IH]; intros d p Hnull; simpl in *.
  - reflexivity.
  - rewrite IH by (intros; apply Hnull; now right).
    destruct (remove_step_get p d q sub)
      as [Hsame | (_ & -> & dflt & v' & Hd & Hn & _)]; [exact Hsame|].
    destruct (Hnull sub (or_introl eq_refl)) as [H|H]; congruence.
Qed.

Lemma fill_step_get p d q sub :
  dict_get p (fill_step d (q, sub)) =
  match dict_get p d with
  | Some x => Some x
  | None =>
      match dict_get "default" sub with
      | Some dflt => if String.eqb q p then Some dflt else None
      | None => None
      end
  end.
Proof.
  unfold fill_step. destruct (dict_get "default" sub) as [dflt|].
  - apply dict_get_setdefault.
  - now destruct (dict_get p d).
Qed.

Lemma fill_loop_keeps props : forall d p v,
  dict_get p d = Some v -> dict_get p (fill_loop props d) = Some v.
Proof.
  unfold fill_loop.
  induction props as [|[q sub] rest IH]; intros d p v Hp; cbn [foldl]; [exact Hp|].
  apply IH. rewrite fill_step_get, Hp. reflexivity.
Qed.

Lemma fill_loop_inserts_null props : forall d p,
  (exists sub, In (p, sub) props) ->
  (forall sub, In (p, sub) props -> dict_get "default" sub = Some VNone) ->
  dict_get p d = None ->
  dict_get p (fill_loop props d) = Some VNone.
Proof.
  unfold fill_loop.
  induction props as [|[q sub] rest IH]; intros d p [sub0 Hin] Hnull Hp;
    cbn [foldl In] in *.
  - contradiction.
  - destruct (String.eqb_spec q p) as [->|Hne].
    + apply (fill_loop_keeps rest). rewrite fill_step_get, Hp.
      rewrite (Hnull sub (or_introl eq_refl)).
      now rewrite String.eqb_refl.
    + destruct Hin as [Heq|Hin]; [congruence|].
      apply IH; eauto.
      rewrite fill_step_get, Hp.
      destruct (dict_get "default" sub); [|reflexivity].
      destruct (String.eqb_spec q p); [contradiction|reflexivity].
Qed.

(** C10.  [validate_remove_default] deletes a property only when its
    subschema declares a default that is not [None] and that the
    instance's value equals; a property whose declared default is [None]
    (or that declares none) is never deleted.  [validate_fill_default]
    does insert a [None] default for a missing property, so removing
    after filling does not give the instance back. *)
Theorem remove_defaults_spares_null
        (draft4_properties : list (string * pydict) -> value -> list string)
        (properties : list (string * pydict)) (instance : value) (p : string) :
  (forall v,
      Spec.value_get p instance = Some v ->
      Spec.value_get p
        (fst (validate_remove_default draft4_properties properties instance)) = None ->
      exists sub dflt,
        In (p, sub) properties /\ dict_get "default" sub = Some dflt /\
        dflt <> VNone /\ py_eq v dflt = true) /\
  ((forall sub, In (p, sub) properties ->
       dict_get "default" sub = Some VNone \/ dict_get "default" sub = None) ->
   Spec.value_get p
     (fst (validate_remove_default draft4_properties properties instance))
   = Spec.value_get p instance) /\
  (is_object instance = true ->
   (exists sub, In (p, sub) properties) ->
   (forall sub, In (p, sub) properties -> dict_get "default" sub = Some VNone) ->
   Spec.value_get p instance = None ->
   let filled := fst (validate_fill_default draft4_properties properties instance) in
   Spec.value_get p filled = Some VNone /\
   Spec.value_get p
     (fst (validate_remove_default draft4_properties properties filled)) = Some VNone /\
   fst (validate_remove_default draft4_properties properties filled) <> instance).
Proof.
  split; [|split].
  - intros v Hv Hgone. destruct instance; simpl in *; try congruence.
    eapply remove_loop_deleted; eauto.
  - intros Hnull. destruct instance; simpl; try reflexivity.
    now apply remove_loop_kept.
  - intros Hobj Hex Hnull Hmiss.
    destruct instance as [| | | | |d]; try discriminate. simpl in *.
    assert (dict_get p (fill_loop properties d) = Some VNone) as Hf
        by now apply fill_loop_inserts_null.
    assert (dict_get p (remove_loop properties (fill_loop properties d)) = Some VNone)
      as Hr.
    { rewrite remove_loop_kept; [exact Hf|].
      intros sub Hin. left. now apply Hnull. }
    repeat split; auto.
    intros Heq. inversion Heq as [Hd]. rewrite Hd in Hr. congruence.
Qed.

End DefaultsFacts.

(** *** The validator's walk *)

Section WalkFacts.
Import Schema Aux.
Context {schema : Type}.
Context (tag_to_schema_resolver : string -> string).
Context (load_schema : string -> option schema).
Context (orig_iter_errors : (oid -> schema -> run) -> store -> oid -> schema -> run).

Local Abbreviation walk :=
  (iter_errors schema tag_to_schema_resolver load_schema orig_iter_errors).

Lemma unseen_shrinks (h : store) (seen : gset oid) (i : oid) (n : node) :
  h !! i = Some n -> i ∉ seen ->
  size (dom h ∖ (seen ∪ {[i]})) < size (dom h ∖ seen).
Proof.
  intros Hi Hseen. apply subset_size.
  assert (i ∈ dom h) by (apply elem_of_dom; eauto).
  set_solver.
Qed.

(** A node already visited yields nothing, whatever the budget left. *)
Lemma walk_skips_seen fuel (h : store) (i : oid) (sch : option schema)
      (seen : gset oid) :
  i ∈ seen -> walk (S fuel) h i sch seen = finished [].
Proof. intros Hin. simpl. now rewrite bool_decide_eq_true_2. Qed.

Lemma and_then_ends (a b : run) :
  snd a = true -> snd b = true -> snd (and_then a b) = true.
Proof. intros Ha Hb. unfold and_then. now rewrite Ha. Qed.

Lemma for_each_ends {A} (f : A -> run) (l : list A) :
  (forall x, snd (f x) = true) -> snd (for_each f l) = true.
Proof.
  intros Hf. induction l as [|x l IH]; [reflexivity|].
  cbn [for_each]. now apply and_then_ends.
Qed.

Section Bounded.
Context (rank : schema -> nat) (R : nat).
Hypothesis Hlib : descends_by_rank rank orig_iter_errors.
Hypothesis Hrank : ranks_below rank load_schema R.

(** Under a schema the library drives the recursion, along the schema. *)
Lemma walk_under_schema_total fuel :
  forall (h : store) (i : oid) (s : schema) (seen : gset oid),
    rank s < fuel -> snd (walk fuel h i (Some s) seen) = true.
Proof.
  induction fuel as [|fuel IH]; intros h i s seen Hlt; [lia|].
  simpl. destruct (bool_decide (i ∈ seen)); [reflexivity|].
  destruct (h !! i) as [n|]; [|reflexivity].
  destruct (looks_like_reference n); [reflexivity|].
  apply Hlib. intros i' s' Hs'. apply IH. lia.
Qed.

(** One frame per object not yet visited, and what the schemas need. *)
Lemma walk_total fuel :
  forall (h : store) (i : oid) (seen : gset oid),
    size (dom h ∖ seen) + R + 1 < fuel -> snd (walk fuel h i None seen) = true.
Proof.
  induction fuel as [|fuel IH]; intros h i seen Hlt; [lia|].
  simpl. destruct (bool_decide (i ∈ seen)) eqn:Hseen; [reflexivity|].
  apply bool_decide_eq_false in Hseen.
  destruct (h !! i) as [n|] eqn:Hi; [|reflexivity].
  destruct (looks_like_reference n); [reflexivity|].
  pose proof (unseen_shrinks h seen i n Hi Hseen) as Hshrink.
  apply and_then_ends.
  - unfold tag_errors. destruct (get_tag n) as [tag|]; [|reflexivity].
    destruct (String.eqb _ tag); [reflexivity|].
    destruct (load_schema _) as [s|] eqn:Hload; [|reflexivity].
    apply Hlib. intros i' s' Hs'. apply walk_under_schema_total.
    pose proof (Hrank _ _ Hload). lia.
  - apply for_each_ends. intros child. apply IH. lia.
Qed.

End Bounded.


End WalkFacts.

(** *** [UserSet] *)

Section UsersetFacts.
Import Userset.

(** C9.  The class binds no [__init__] (the initializer is spelled
    [__init___]), so an instance that the constructor returns has no
    [data] attribute.  On it, every call of a method other than the
    misspelled initializer raises and leaves the instance as it was:
    [AttributeError] for [data] when the arguments fit the method's
    signature, so that its body runs; [TypeError] when their number
    does not fit, before the body runs.  No call behaves as a set. *)
Theorem userset_has_no_data (args : list pyval) (self : instance) :
  construct args = Ok self ->
  class_lookup UserSet_namespace "__init__" = None /\
  attrs self !! "data" = None /\
  forall (m : method) (margs : list pyval),
    m <> m_init___ ->
    (accepts m (length margs) = true ->
     call m self margs = (self, Raise (no_attribute "data"))) /\
    (accepts m (length margs) = false ->
     call m self margs = (self, Raise wrong_arity)).
Proof.
  intros H. split; [reflexivity|].
  unfold construct in H.
  change (class_lookup UserSet_namespace "__init__") with (@None method) in H.
  destruct args; [|discriminate]. inversion H; subst.
  split; [reflexivity|].
  intros m margs Hm. split; intros Hacc; unfold call; rewrite Hacc; cbn [negb].
  - destruct m; try contradiction; reflexivity.
  - reflexivity.
Qed.

End UsersetFacts.

(** *** [update]: where the budget goes *)

Section UpdatePath.
Context {tree node fdh reader Env : Type}.
Context (C : Collaborators tree node fdh reader Env).

Lemma try_finally_bind_ok {A B} (m : Asdf.M tree fdh Env A)
      (k : A -> Asdf.M tree fdh Env B) (fin : Asdf.M tree fdh Env unit) w w1 a :
  m w = (w1, Ok a) ->
  try_finally (bind m k) fin w = try_finally (k a) fin w1.
Proof. intros H. unfold try_finally, bind. now rewrite H. Qed.

(** On an open, writable, seekable stream, without external storage for
    all arrays and with blocks to reuse, [update] hands the size just
    computed to [calculate_updated_layout], and what follows runs under
    the [finally] that calls [_post_write]. *)
Lemma update_plans_with_serialized_tree_size
      (st co : option string) (ai : option nat) (p : pad) (rd : bool)
      (fd : fdh) (size : nat) (w w1 w2 w3 w4 w5 w6 : World tree fdh Env) :
  _fd (self w) = Some fd ->
  fd_writable C fd w = (w1, Ok true) ->
  st <> Some "external" ->
  fd_seekable C fd w1 = (w2, Ok true) ->
  _pre_write C fd st co ai w2 = (w3, Ok tt) ->
  fd_seek C fd 0 w3 = (w4, Ok tt) ->
  has_blocks_with_offset C w4 = (w5, Ok true) ->
  serialized_tree_size C rd w5 = (w6, Ok size) ->
  update C st co ai p rd w =
  try_finally
    (bs <- fd_block_size C fd ;;
     fits <- calculate_updated_layout C size p bs ;;
     if negb fits then serial_fallback C fd p rd
     else fd_seek C fd 0 ;; _random_write C fd p rd ;; fd_flush C fd)
    (_post_write C fd) w6.
Proof.
  intros Hfd Hwr Hst Hsk Hpre Hseek Hreuse Hsize. unfold update.
  rewrite (bind_ok get_self _ w w (self w)) by reflexivity.
  rewrite Hfd. step_ok Hwr. cbn [negb].
  rewrite bool_decide_eq_false_2 by assumption.
  step_ok Hsk. cbn [negb]. step_ok Hpre.
  rewrite (try_finally_bind_ok _ _ _ _ _ _ Hseek).
  rewrite (try_finally_bind_ok _ _ _ _ _ _ Hreuse). cbn [negb].
  rewrite (try_finally_bind_ok _ _ _ _ _ _ Hsize).
  reflexivity.
Qed.

End UpdatePath.

(* ===================================================================== *)
(** ** The theorems at concrete inputs                                    *)
(* ===================================================================== *)

Section Concrete.
Import Sample Cases.

(** **** C1 *)

(** The budget computed for [reuse_world]: the buffer holds 50 bytes, two
    occurrences of arrays are stored internally. *)
Lemma serialized_tree_size_formula_witness :
  let w1 := fst (BytesIO collaborators reuse_world) in
  let w2 := fst (_write_tree collaborators two_arrays 2%nat (PadBool false) true w1) in
  BytesIO collaborators reuse_world = (w1, Ok 2%nat) /\
  _write_tree collaborators (_tree (self w1)) 2%nat (PadBool false) true w1
    = (w2, Ok tt) /\
  fd_tell collaborators 2%nat w2 = (w2, Ok 50%nat) /\
  serialized_tree_size collaborators true reuse_world
  = (w2, Ok (50 + MAX_BLOCKS_DIGITS collaborators
                  * Spec.internal_refs collaborators storage_of
                                       (_tree (self w2)))%nat).
Proof.
  intros w1 w2.
  assert (BytesIO collaborators reuse_world = (w1, Ok 2%nat)) as H1
      by (vm_compute; reflexivity).
  assert (_write_tree collaborators (_tree (self w1)) 2%nat (PadBool false) true w1
          = (w2, Ok tt)) as H2 by (vm_compute; reflexivity).
  assert (fd_tell collaborators 2%nat w2 = (w2, Ok 50%nat)) as H4
      by (vm_compute; reflexivity).
  split; [exact H1|]. split; [exact H2|]. split; [exact H4|].
  apply (serialized_tree_size_formula collaborators true storage_of
           reuse_world w1 w2 w2 2%nat 50%nat H1 H2); [|exact H4].
  intros n Hin Hnd. vm_compute in Hin.
  repeat (destruct Hin as [<-|Hin]; [try discriminate Hnd; vm_compute; reflexivity|]).
  contradiction.
Defined.

(** The claim of C1 as stated fails on [reuse_world]: the budget is 62,
    the buffer (magic line and YAML document, end marker included) holds
    50 bytes of which the YAML document is 38, two references count, six
    digits are allowed for each, the end marker is 4 bytes long; the
    formula with an end-marker term gives 66 on the buffer and 54 on the
    YAML document. *)
Lemma budget_has_no_end_marker_term :
  exists w' buffer,
    serialized_tree_size collaborators true reuse_world = (w', Ok 62%nat) /\
    streams (env w') !! 2%nat = Some buffer /\
    s_content buffer = "#ASDF 0.1.0" +:+ LF +:+ sample_yaml two_arrays /\
    String.length (s_content buffer) = 50%nat /\
    String.length (sample_yaml two_arrays) = 38%nat /\
    Spec.internal_refs collaborators storage_of two_arrays = 2%nat /\
    MAX_BLOCKS_DIGITS collaborators = 6%nat /\
    62%nat <> Spec.claimed_budget 50 2 6 (String.length ("..." +:+ LF)) /\
    62%nat <> Spec.claimed_budget 38 2 6 (String.length ("..." +:+ LF)).
Proof.
  eexists. eexists.
  split; [vm_compute; reflexivity|].
  split; [vm_compute; reflexivity|].
  repeat split; try (vm_compute; reflexivity); vm_compute; discriminate.
Qed.

(** **** C2 *)

Lemma update_preconditions_witness :
  update collaborators None None None (PadBool false) true closed_world
    = (closed_world, Raise NotOpen) /\
  update collaborators None None None (PadBool false) true read_only_world
    = (read_only_world, Raise NotWritable) /\
  update collaborators None None None (PadBool false) true pipe_world
    = (pipe_world, Raise NotSeekable) /\
  (GarbageAfterHeader = NotAsdf \/ GarbageAfterHeader = GarbageAfterHeader \/
   Spec.raised_by_open_collaborator collaborators GarbageAfterHeader).
Proof.
  destruct (update_preconditions collaborators None None None (PadBool false) true)
    as (H1 & H2 & H3 & H4).
  split; [apply H1; reflexivity|].
  split; [apply (H2 read_only_world 1%nat); reflexivity|].
  split.
  - apply (H3 pipe_world 1%nat pipe_world); try reflexivity. discriminate.
  - apply (H4 (FileObj 1%nat) None "r" false true false (input junk_file)
              (fst (sample_open junk_file))).
    vm_compute. reflexivity.
Defined.

(** The claim of C2 as stated fails on [pipe_world]: its stream is
    writable and not seekable, and [update] with external storage for all
    arrays returns without raising. *)
Lemma update_external_ignores_seekable :
  _fd (self pipe_world) = Some 1%nat /\
  snd (fd_writable collaborators 1%nat pipe_world) = Ok true /\
  snd (fd_seekable collaborators 1%nat pipe_world) = Ok false /\
  snd (update collaborators (Some "external") None None (PadBool false) true
              pipe_world) = Ok tt /\
  snd (update collaborators (Some "external") None None (PadBool false) true
              pipe_world) <> Raise NotSeekable.
Proof.
  repeat split; try (vm_compute; reflexivity).
  vm_compute. discriminate.
Qed.

(** **** C3 *)

Lemma update_external_witness :
  _fd (self writable_world) = Some 1%nat /\
  fd_writable collaborators 1%nat writable_world = (writable_world, Ok true) /\
  update (Spec.with_planner collaborators
            (raise NotOpen) (fun _ _ _ => raise NotOpen) (fun _ => raise NotOpen))
         (Some "external") None None (PadBool true) false writable_world
  = Spec.update_external collaborators 1%nat writable_world.
Proof.
  split; [reflexivity|]. split; [reflexivity|].
  apply update_external_is_write_to_then_truncate; reflexivity.
Defined.

(** **** C4 *)

Lemma open_token_dispatch_witness :
  (fd_read collaborators 1%nat 4 (version_set yaml_only)
     = (token_read yaml_only, Ok "%YAM") /\
   sample_open yaml_only
     = Spec.after_token collaborators 1%nat false true "%YAM" (token_read yaml_only)) /\
  (fd_read collaborators 1%nat 4 (version_set blocks_only)
     = (token_read blocks_only, Ok BLOCK_MAGIC) /\
   sample_open blocks_only
     = (read_internal_blocks collaborators 1%nat true false ;;
        Spec.install collaborators true (SDict []))%py (token_read blocks_only)) /\
  (fd_read collaborators 1%nat 4 (version_set empty_file)
     = (token_read empty_file, Ok EmptyString) /\
   sample_open empty_file
     = Spec.install collaborators true (SDict []) (token_read empty_file)) /\
  (fd_read collaborators 1%nat 4 (version_set junk_file)
     = (token_read junk_file, Ok "FOO") /\
   sample_open junk_file = (token_read junk_file, Raise GarbageAfterHeader)).
Proof.
  assert (forall content token,
             fd_read_until collaborators 1%nat NEWLINE_REGEX 2 "newline" true
                           (file_bound content)
               = (line_read content, Ok ("#ASDF 0.1.0" +:+ LF)) ->
             fd_read collaborators 1%nat 4 (version_set content)
               = (token_read content, Ok token) ->
             sample_open content
               = Spec.after_token collaborators 1%nat false true token
                                  (token_read content) /\
             (token = BLOCK_MAGIC ->
              sample_open content
              = (read_internal_blocks collaborators 1%nat true false ;;
                 Spec.install collaborators true (SDict []))%py (token_read content)) /\
             (token = EmptyString ->
              sample_open content
              = Spec.install collaborators true (SDict []) (token_read content)) /\
             (token <> "%YAM" -> token <> BLOCK_MAGIC -> token <> EmptyString ->
              sample_open content = (token_read content, Raise GarbageAfterHeader)))
    as Hrun.
  { intros content token Hline Hread.
    exact (open_token_dispatch collaborators (FileObj 1%nat) None "r" false true
             (input content) (input content) (line_read content)
             (version_set content) (token_read content) 1%nat
             ("#ASDF 0.1.0" +:+ LF) (0, 1, 0)%nat token
             eq_refl Hline eq_refl eq_refl Hread). }
  assert (fd_read collaborators 1%nat 4 (version_set yaml_only)
          = (token_read yaml_only, Ok "%YAM")) as Hy by (vm_compute; reflexivity).
  assert (fd_read collaborators 1%nat 4 (version_set blocks_only)
          = (token_read blocks_only, Ok BLOCK_MAGIC)) as Hb by (vm_compute; reflexivity).
  assert (fd_read collaborators 1%nat 4 (version_set empty_file)
          = (token_read empty_file, Ok EmptyString)) as He by (vm_compute; reflexivity).
  assert (fd_read collaborators 1%nat 4 (version_set junk_file)
          = (token_read junk_file, Ok "FOO")) as Hj by (vm_compute; reflexivity).
  split; [|split; [|split]]; (split; [assumption|]).
  - apply (Hrun yaml_only "%YAM"); [vm_compute; reflexivity | exact Hy].
  - apply (Hrun blocks_only BLOCK_MAGIC); [vm_compute; reflexivity | exact Hb | reflexivity].
  - apply (Hrun empty_file EmptyString); [vm_compute; reflexivity | exact He | reflexivity].
  - apply (Hrun junk_file "FOO"); [vm_compute; reflexivity | exact Hj | ..]; discriminate.
Defined.

(** The four cases on files: an empty file, junk after the header, blocks
    without YAML, YAML without blocks. *)
Example open_empty_file :
  snd (sample_open empty_file) = Ok OpenedFile /\
  _tree (self (fst (sample_open empty_file))) = SDict [] /\
  blocks (env (fst (sample_open empty_file))) = [].
Proof. repeat split; vm_compute; reflexivity. Qed.

Example open_junk_file :
  snd (sample_open junk_file) = Raise GarbageAfterHeader.
Proof. vm_compute. reflexivity. Qed.

Example open_blocks_only :
  snd (sample_open blocks_only) = Ok OpenedFile /\
  _tree (self (fst (sample_open blocks_only))) = SDict [] /\
  length (blocks (env (fst (sample_open blocks_only)))) = 1%nat.
Proof. repeat split; vm_compute; reflexivity. Qed.

Example open_yaml_only :
  snd (sample_open yaml_only) = Ok OpenedFile /\
  _tree (self (fst (sample_open yaml_only))) =
    SDict [("yaml", SScalar (Schema.VStr
       ("%YAML 1.1" +:+ LF +:+ "--- !core/asdf" +:+ LF +:+ "foo: bar" +:+ LF
        +:+ "..." +:+ LF)))] /\
  blocks (env (fst (sample_open yaml_only))) = [].
Proof. repeat split; vm_compute; reflexivity. Qed.

(** **** C5 *)

Lemma open_rejects_bad_header_witness :
  snd (sample_open no_header) = Raise NotAsdf /\
  snd (sample_open simple_line) = Raise NotAsdf /\
  Spec.header_line_form simple_line = false.
Proof.
  pose (bound (content : bytes) :=
          mkWorld (set_fd (Some 1%nat) (self (input content))) (env (input content))).
  destruct (open_rejects_bad_header collaborators (FileObj 1%nat) None "r"
              false true false (input no_header) (input no_header) 1%nat eq_refl)
    as [Hraise _].
  destruct (open_rejects_bad_header collaborators (FileObj 1%nat) None "r"
              false true false (input simple_line) (input simple_line) 1%nat eq_refl)
    as [_ Hline].
  specialize (Hraise (bound no_header) "newline not found").
  specialize (Hline
                (fst (fd_read_until collaborators 1%nat NEWLINE_REGEX 2 "newline"
                                    true (bound simple_line)))
                simple_line).
  split.
  - unfold sample_open. rewrite Hraise; [reflexivity|]. vm_compute. reflexivity.
  - destruct Hline as [Hform Hopen]; [vm_compute; reflexivity | reflexivity |].
    split; [|exact Hform].
    unfold sample_open. rewrite Hopen. reflexivity.
Defined.

(** The claim of C5 as stated fails on [trailing_bytes]: its first line,
    [#ASDF 0.1.0junk], is not of the form [#ASDF <major>.<minor>.<micro>],
    and [open] succeeds. *)
Lemma open_accepts_trailing_bytes :
  Spec.first_line trailing_bytes = trailing_bytes /\
  Spec.header_line_form (Spec.first_line trailing_bytes) = false /\
  re_match_header (Spec.first_line trailing_bytes) = Some (0, 1, 0)%nat /\
  snd (sample_open trailing_bytes) = Ok OpenedFile /\
  snd (sample_open trailing_bytes) <> Raise NotAsdf.
Proof.
  repeat split; try (vm_compute; reflexivity). vm_compute. discriminate.
Qed.

(** **** C6 *)

Lemma tree_set_validates_first_witness :
  let e1 := fst (sample_bridge bad_tree (self stored_world) (env stored_world)) in
  let e2 := fst (sample_bridge array_tree (self stored_world) (env stored_world)) in
  (tree_set collaborators bad_tree stored_world
     = (mkWorld (self stored_world) e1,
        Raise (ValidationError "value of 'foo' is not of type 'string'")) /\
   _tree (self stored_world) = good_tree) /\
  tree_set collaborators array_tree stored_world
    = (mkWorld (set_tree array_tree (self stored_world)) e2, Ok tt).
Proof.
  intros e1 e2.
  destruct (tree_set_validates_first collaborators bad_tree stored_world)
    as [_ Hbad].
  destruct (Hbad bad_tree bad_tree e1 eq_refl eq_refl) as [Hfail _].
  destruct (tree_set_validates_first collaborators array_tree stored_world)
    as [_ Harr].
  destruct (Harr array_tree array_tree e2 eq_refl eq_refl) as [_ Hpass].
  split; [split; [|reflexivity]|].
  - apply Hfail. vm_compute. reflexivity.
  - apply Hpass. vm_compute. reflexivity.
Defined.

(** The claim of C6 as stated fails on [bad_tree]: the assignment is
    rejected and the stored tree is the one it was, but the array of the
    rejected tree is registered with the block manager, which held no
    block before. *)
Lemma rejected_tree_leaves_block_registered :
  let w' := fst (tree_set collaborators bad_tree stored_world) in
  snd (tree_set collaborators bad_tree stored_world)
    = Raise (ValidationError "value of 'foo' is not of type 'string'") /\
  _tree (self w') = _tree (self stored_world) /\
  blocks (env stored_world) = [] /\
  length (blocks (env w')) = 1%nat /\
  env w' <> env stored_world.
Proof.
  intros w'. repeat split; try (vm_compute; reflexivity).
  intros Heq. apply (f_equal (fun e => length (blocks e))) in Heq.
  vm_compute in Heq. discriminate.
Qed.

(** **** C8 *)

Lemma toy_orig_descends : Aux.descends_by_rank (@length string) toy_orig.
Proof.
  intros descend h i s Hd. destruct s as [|msg rest]; [reflexivity|].
  cbn [toy_orig]. apply and_then_ends; [reflexivity|].
  apply for_each_ends. intros val. apply Hd. cbn [length]. lia.
Qed.

Lemma toy_load_ranks : Aux.ranks_below (@length string) toy_load 1.
Proof. intros path s [= <-]. reflexivity. Qed.


(** The claim of C8 as stated fails where a schema refers to itself: the
    calls that the library makes start from an empty visited set, so on a
    sequence that holds itself the recursion goes on until the recursion
    limit is hit, whatever the limit. *)
Lemma recursive_orig_on_self_list (descend : Schema.oid -> unit -> Schema.run) :
  recursive_orig descend self_list 0%nat tt
  = Schema.and_then (descend 0%nat tt) (Schema.finished []).
Proof. reflexivity. Qed.

Lemma recursive_schema_never_returns fuel :
  Schema.iter_errors unit toy_resolver recursive_load recursive_orig
                     fuel self_list 0%nat (Some tt) ∅ = Schema.overflow.
Proof.
  induction fuel as [|fuel IH]; [reflexivity|].
  cbn [Schema.iter_errors].
  rewrite bool_decide_eq_false_2 by set_solver.
  change (self_list !! 0%nat)
    with (Some (Schema.NList (Some "tag:example/tree") [0%nat])).
  cbn [Schema.looks_like_reference].
  rewrite recursive_orig_on_self_list, IH. reflexivity.
Qed.


(** The limit is a fixed number: where it is below what the walk needs,
    it is hit on a small store as well. *)
Example small_limit_is_hit :
  Schema.validate (list string) toy_resolver toy_load toy_orig
                  2 cyclic_store 0%nat None
  = Raise (RuntimeError "maximum recursion depth exceeded").
Proof. vm_compute. reflexivity. Qed.

(** **** C9 *)

Lemma userset_has_no_data_witness :
  Userset.construct [] = Ok (Userset.Instance ∅) /\
  Userset.call Userset.m_add (Userset.Instance ∅) [Userset.PInt 1]
    = (Userset.Instance ∅, Raise (Userset.no_attribute "data")) /\
  Userset.call Userset.m_len (Userset.Instance ∅) []
    = (Userset.Instance ∅, Raise (Userset.no_attribute "data")) /\
  Userset.call Userset.m_union (Userset.Instance ∅) []
    = (Userset.Instance ∅, Raise (Userset.no_attribute "data")) /\
  Userset.call Userset.m_add (Userset.Instance ∅) []
    = (Userset.Instance ∅, Raise Userset.wrong_arity) /\
  Userset.call Userset.m_len (Userset.Instance ∅) [Userset.PInt 1]
    = (Userset.Instance ∅, Raise Userset.wrong_arity).
Proof.
  destruct (userset_has_no_data [] (Userset.Instance ∅) eq_refl) as (_ & _ & H).
  split; [reflexivity|].
  split; [apply (H Userset.m_add [Userset.PInt 1]); [discriminate|reflexivity]|].
  split; [apply (H Userset.m_len []); [discriminate|reflexivity]|].
  split; [apply (H Userset.m_union []); [discriminate|reflexivity]|].
  split; [apply (H Userset.m_add []); [discriminate|reflexivity]|].
  apply (H Userset.m_len [Userset.PInt 1]); [discriminate|reflexivity].
Defined.

(** With arguments the constructor raises, and what the methods would do
    on an instance that had its [data]. *)
Example userset_constructor_rejects_arguments :
  Userset.construct [Userset.PSet {[Some 1%Z]}]
  = Raise (TypeError "object() takes no parameters").
Proof. reflexivity. Qed.

Example userset_with_data_would_work :
  let s := Userset.setattr (Userset.Instance ∅) "data"
                           (Userset.PSet {[Some 1%Z; Some 2%Z]}) in
  snd (Userset.call Userset.m_len s []) = Ok (Userset.PInt 2) /\
  snd (Userset.call Userset.m_contains s [Userset.PInt 2]) = Ok (Userset.PBool true).
Proof. split; vm_compute; reflexivity. Qed.

(** **** C10 *)

Lemma remove_defaults_spares_null_witness :
  (exists sub dflt,
      In ("count", sub) props /\ Schema.dict_get "default" sub = Some dflt /\
      dflt <> Schema.VNone /\ Schema.py_eq (Schema.VBool true) dflt = true) /\
  Spec.value_get "unit"
    (fst (Schema.validate_remove_default no_errors props
            (Schema.VDict [("unit", Schema.VNone)])))
  = Some Schema.VNone /\
  Spec.value_get "unit"
    (fst (Schema.validate_fill_default no_errors props inst_count))
  = Some Schema.VNone /\
  fst (Schema.validate_remove_default no_errors props
         (fst (Schema.validate_fill_default no_errors props
                 (Schema.VDict [("name", Schema.VStr "x")]))))
  <> Schema.VDict [("name", Schema.VStr "x")].
Proof.
  assert (forall sub, In ("unit", sub) props ->
                      Schema.dict_get "default" sub = Some Schema.VNone) as Hnull.
  { intros sub Hin. vm_compute in Hin.
    repeat (destruct Hin as [Hin|Hin]; [inversion Hin; subst; reflexivity || discriminate|]).
    contradiction. }
  assert (exists sub, In ("unit", sub) props) as Hex
      by (eexists; left; reflexivity).
  split.
  - destruct (remove_defaults_spares_null no_errors props inst_count "count")
      as (H1 & _ & _).
    apply (H1 (Schema.VBool true)); vm_compute; reflexivity.
  - split.
    + destruct (remove_defaults_spares_null no_errors props
                  (Schema.VDict [("unit", Schema.VNone)]) "unit") as (_ & H2 & _).
      rewrite H2; [reflexivity|]. intros sub Hin. left. now apply Hnull.
    + split.
      * destruct (remove_defaults_spares_null no_errors props inst_count "unit")
          as (_ & _ & H3).
        apply H3; auto.
      * destruct (remove_defaults_spares_null no_errors props
                    (Schema.VDict [("name", Schema.VStr "x")]) "unit")
          as (_ & _ & H3).
        apply H3; auto.
Defined.

End Concrete.

(* ===================================================================== *)
(** ** Further properties of the embedded code                            *)
(* ===================================================================== *)

(** *** [validate_fill_default] and [validate_remove_default] *)

Section DefaultsMore.
Import Schema Aux.

Lemma fill_loop_lookup props : forall d p,
  dict_get p (fill_loop props d) =
  match dict_get p d with
  | Some v => Some v
  | None => declared_default p props
  end.
Proof.
  unfold fill_loop.
  induction props as [|[q sub] rest IH]; intros d p; cbn [foldl declared_default].
  - now destruct (dict_get p d).
  - rewrite IH, fill_step_get.
    destruct (dict_get p d) as [v|]; [reflexivity|].
    destruct (dict_get "default" sub) as [dflt|];
      destruct (String.eqb q p); reflexivity.
Qed.

Lemma declared_default_In p props dflt :
  declared_default p props = Some dflt ->
  exists sub, In (p, sub) props /\ dict_get "default" sub = Some dflt.
Proof.
  induction props as [|[q sub] rest IH]; cbn [declared_default]; [discriminate|].
  destruct (String.eqb_spec q p) as [->|Hne].
  - destruct (dict_get "default" sub) as [d|] eqn:Hd.
    + intros [= <-]. exists sub. split; [now left | exact Hd].
    + intros H. destruct (IH H) as (sub' & Hin & Hd'). exists sub'.
      split; [now right | exact Hd'].
  - intros H. destruct (IH H) as (sub' & Hin & Hd'). exists sub'.
    split; [now right | exact Hd'].
Qed.

Lemma In_declared_default p sub dflt props :
  In (p, sub) props -> dict_get "default" sub = Some dflt ->
  exists d, declared_default p props = Some d.
Proof.
  induction props as [|[q sub'] rest IH]; cbn [In declared_default]; [contradiction|].
  intros [Heq|Hin] Hd.
  - inversion Heq; subst. rewrite String.eqb_refl, Hd. eauto.
  - destruct (String.eqb q p); [|eauto].
    destruct (dict_get "default" sub'); eauto.
Qed.

Lemma setdefault_bound k v d :
  dict_contains k d = true -> dict_setdefault k v d = d.
Proof. unfold dict_setdefault. now intros ->. Qed.

Lemma fill_loop_fixed props : forall d,
  (forall q sub dflt, In (q, sub) props -> dict_get "default" sub = Some dflt ->
                      dict_contains q d = true) ->
  fill_loop props d = d.
Proof.
  unfold fill_loop.
  induction props as [|[q sub] rest IH]; intros d H; cbn [foldl]; [reflexivity|].
  assert (fill_step d (q, sub) = d) as ->.
  { unfold fill_step. destruct (dict_get "default" sub) as [dflt|] eqn:Hd; [|reflexivity].
    apply setdefault_bound. eapply H; [now left | exact Hd]. }
  apply IH. intros q' sub' dflt' Hin. apply (H q' sub' dflt'). now right.
Qed.



Lemma fill_loop_appends props : forall d,
  exists added,
    fill_loop props d = d ++ added /\
    forall k v, In (k, v) added ->
                dict_get k d = None /\ declared_default k props = Some v.
Proof.
  unfold fill_loop.
  induction props as [|[q sub] rest IH]; intros d; cbn [foldl].
  - exists []. split; [now rewrite app_nil_r | intros k v []].
  - assert (exists x, fill_step d (q, sub) = d ++ x /\
                      forall k v, In (k, v) x ->
                                  k = q /\ dict_get q d = None /\
                                  dict_get "default" sub = Some v) as (x & Hx & Hxin).
    { unfold fill_step. destruct (dict_get "default" sub) as [dflt|] eqn:Hd.
      - unfold dict_setdefault, dict_contains.
        destruct (dict_get q d) as [x0|] eqn:Hq.
        + exists []. split; [now rewrite app_nil_r | intros k0 v0 []].
        + exists [(q, dflt)]. split; [reflexivity|].
          intros k0 v0 [Heq|[]]. inversion Heq; subst. auto.
      - exists []. split; [now rewrite app_nil_r | intros k v []]. }
    destruct (IH (fill_step d (q, sub))) as (added & Ha & Hain).
    exists (x ++ added). split.
    + rewrite Ha, Hx. now rewrite app_assoc.
    + intros k v Hin. apply in_app_or in Hin as [Hin|Hin].
      * destruct (Hxin k v Hin) as (-> & Hq & Hd).
        split; [exact Hq|]. cbn [declared_default].
        now rewrite String.eqb_refl, Hd.
      * destruct (Hain k v Hin) as (Hk & Hdd).
        assert (dict_get k d = None) as Hkd.
        { rewrite Hx, dict_get_app in Hk. destruct (dict_get k d); [discriminate|reflexivity]. }
        split; [exact Hkd|]. cbn [declared_default].
        destruct (String.eqb_spec q k) as [->|Hne]; [|exact Hdd].
        destruct (dict_get "default" sub) as [dflt|] eqn:Hd; [|exact Hdd].
        exfalso. rewrite fill_step_get, Hkd, Hd, String.eqb_refl in Hk.
        discriminate.
Qed.


Lemma remove_step_lookup p d q sub :
  dict_get p (remove_step d (q, sub)) =
  match dict_get p d with
  | Some v => if String.eqb q p && equals_default v sub then None else Some v
  | None => None
  end.
Proof.
  unfold remove_step, equals_default.
  destruct (dict_get "default" sub) as [dflt|] eqn:Hd; cbn [default from_option id].
  2:{ cbn [is_not_None]. destruct (dict_get p d); [|reflexivity].
      now rewrite andb_false_r. }
  destruct (is_not_None dflt) eqn:Hnn.
  2:{ destruct (dict_get p d); [|reflexivity]. now rewrite andb_false_r. }
  destruct (py_eq (default VNone (dict_get q d)) dflt) eqn:Heq.
  - rewrite dict_get_del.
    destruct (String.eqb_spec q p) as [->|Hne].
    + destruct (dict_get p d) as [v|] eqn:Hp; [|reflexivity].
      cbn [default from_option id] in Heq. now rewrite Heq.
    + now destruct (dict_get p d).
  - destruct (dict_get p d) as [v|] eqn:Hp; [|reflexivity].
    destruct (String.eqb_spec q p) as [->|Hne]; [|reflexivity].
    rewrite Hp in Heq. cbn [default from_option id] in Heq. now rewrite Heq.
Qed.

Lemma remove_loop_lookup props : forall d p,
  dict_get p (remove_loop props d) =
  match dict_get p d with
  | Some v => if matches_default p v props then None else Some v
  | None => None
  end.
Proof.
  unfold remove_loop, matches_default.
  induction props as [|[q sub] rest IH]; intros d p; cbn [foldl existsb fst snd].
  - now destruct (dict_get p d).
  - rewrite IH, remove_step_lookup.
    destruct (dict_get p d) as [v|]; [|reflexivity].
    destruct (String.eqb q p && equals_default v sub); reflexivity.
Qed.

(** X4.  [validate_remove_default] adds nothing: a property that is
    unbound stays unbound.  A property bound to a value that holds no
    mapping is deleted exactly when some subschema listed for it declares
    a default other than [None] that the value equals, and keeps its
    value otherwise.  (With mappings inside, whether two values are equal
    depends on the types of the mappings, ordered or not.) *)
Theorem remove_default_lookup
        (draft4_properties : list (string * pydict) -> value -> list string)
        (properties : list (string * pydict)) (d : pydict) (p : string) :
  (dict_get p d = None ->
   Spec.value_get p
     (fst (validate_remove_default draft4_properties properties (VDict d)))
   = None) /\
  (forall v,
      dict_get p d = Some v ->
      mapping_free v = true ->
      Spec.value_get p
        (fst (validate_remove_default draft4_properties properties (VDict d)))
      = if matches_default p v properties then None else Some v).
Proof.
  split.
  - intros Hp. simpl. rewrite remove_loop_lookup, Hp. reflexivity.
  - intros v Hp _. simpl. rewrite remove_loop_lookup, Hp. reflexivity.
Qed.

Lemma dict_del_sublist k (d : pydict) : dict_del k d `sublist_of` d.
Proof.
  induction d as [|[k' v] d IH]; simpl; [constructor|].
  destruct (String.eqb k' k); [now apply sublist_cons | now apply sublist_skip].
Qed.

Lemma remove_step_sublist (d : pydict) e : remove_step d e `sublist_of` d.
Proof.
  destruct e as [q sub]. unfold remove_step.
  destruct (is_not_None _); [|reflexivity].
  destruct (py_eq _ _); [apply dict_del_sublist | reflexivity].
Qed.


Lemma remove_loop_fixed props : forall d,
  (forall q sub v, In (q, sub) props -> dict_get q d = Some v ->
                   equals_default v sub = false) ->
  remove_loop props d = d.
Proof.
  unfold remove_loop.
  induction props as [|[q sub] rest IH]; intros d H; cbn [foldl]; [reflexivity|].
  assert (remove_step d (q, sub) = d) as ->.
  { unfold remove_step.
    destruct (is_not_None (default VNone (dict_get "default" sub))) eqn:Hnn;
      [|reflexivity].
    destruct (py_eq (default VNone (dict_get q d))
                    (default VNone (dict_get "default" sub))) eqn:Heq;
      [|reflexivity].
    exfalso. destruct (dict_get q d) as [v|] eqn:Hq; cbn [default from_option id] in Heq.
    - specialize (H q sub v (or_introl eq_refl) Hq).
      unfold equals_default in H.
      destruct (dict_get "default" sub) as [dflt|]; cbn [default from_option id] in *;
        [|discriminate].
      rewrite Hnn, Heq in H. discriminate.
    - apply py_eq_None_l in Heq. rewrite Heq in Hnn. discriminate. }
  apply IH. intros q' sub' v Hin. apply (H q' sub' v). now right.
Qed.

(** X6.  On a mapping whose values hold no mapping, removing defaults
    twice is removing them once.  (A value that is a mapping is handed on
    to the validators of its own subschema, which may delete in it; a
    second pass can then find it equal to its default where the first
    did not.) *)
Theorem remove_default_idempotent
        (draft4_properties : list (string * pydict) -> value -> list string)
        (properties : list (string * pydict)) (d : pydict) :
  flat d = true ->
  fst (validate_remove_default draft4_properties properties
         (fst (validate_remove_default draft4_properties properties (VDict d))))
  = fst (validate_remove_default draft4_properties properties (VDict d)).
Proof.
  intros _. simpl. f_equal.
  apply remove_loop_fixed. intros q sub v Hin Hq.
  rewrite remove_loop_lookup in Hq.
  destruct (dict_get q d) as [v0|]; [|discriminate].
  destruct (matches_default q v0 properties) eqn:Hm; [discriminate|].
  inversion Hq; subst.
  unfold matches_default in Hm.
  destruct (equals_default v sub) eqn:He; [|reflexivity].
  exfalso. apply Bool.not_true_iff_false in Hm. apply Hm.
  apply existsb_exists. exists (q, sub). split; [exact Hin|].
  cbn [fst snd]. now rewrite String.eqb_refl, He.
Qed.

(** X7.  A property that is unbound, and for which the first default
    declared is not [None] and equals itself, is unbound again after
    filling and then removing defaults. *)
Theorem remove_after_fill_restores_absence
        (draft4_properties : list (string * pydict) -> value -> list string)
        (properties : list (string * pydict)) (d : pydict) (p : string)
        (dflt : value) :
  dict_get p d = None ->
  declared_default p properties = Some dflt ->
  dflt <> VNone ->
  py_eq dflt dflt = true ->
  Spec.value_get p
    (fst (validate_remove_default draft4_properties properties
            (fst (validate_fill_default draft4_properties properties (VDict d)))))
  = None.
Proof.
  intros Hp Hdd Hnn Hrefl. simpl.
  rewrite remove_loop_lookup, fill_loop_lookup, Hp, Hdd.
  assert (matches_default p dflt properties = true) as ->; [|reflexivity].
  destruct (declared_default_In _ _ _ Hdd) as (sub & Hin & Hd).
  apply existsb_exists. exists (p, sub). split; [exact Hin|].
  cbn [fst snd]. rewrite String.eqb_refl. unfold equals_default. rewrite Hd, Hrefl.
  destruct dflt; try reflexivity. contradiction.
Qed.

Lemma declared_default_unique p sub props :
  List.NoDup (map fst props) -> In (p, sub) props ->
  declared_default p props = dict_get "default" sub.
Proof.
  induction props as [|[q sub'] rest IH]; cbn [In map fst declared_default];
    [contradiction|].
  intros Hnd [Heq|Hin]; inversion Hnd as [|? ? Hnotin Hnd']; subst.
  - inversion Heq; subst. rewrite String.eqb_refl.
    destruct (dict_get "default" sub) eqn:Hd; [reflexivity|].
    clear IH Hnd Hnd' Heq. induction rest as [|[q' s'] rest IH'];
      cbn [declared_default]; [reflexivity|].
    destruct (String.eqb_spec q' p) as [->|Hne].
    + exfalso. apply Hnotin. now left.
    + apply IH'. intros Hin. apply Hnotin. now right.
  - destruct (String.eqb_spec q p) as [->|Hne]; [|now apply IH].
    exfalso. apply Hnotin. apply in_map_iff. exists (p, sub). auto.
Qed.


End DefaultsMore.

(** *** [_parse_header_line] *)

Section HeaderMore.
Import Aux.

Lemma str_app_nil (s : string) : EmptyString +:+ s = s.
Proof. reflexivity. Qed.

Lemma str_app_cons (c : ascii) (a s : string) :
  String c a +:+ s = String c (a +:+ s).
Proof. reflexivity. Qed.

Lemma span_digits_app d rest :
  all_digits d = true -> no_leading_digit rest = true ->
  span_digits (d +:+ rest) = (d, rest).
Proof.
  induction d as [|c d IH]; cbn [all_digits]; intros Hd Hr;
    rewrite ?str_app_nil, ?str_app_cons.
  - destruct rest as [|c r]; [reflexivity|]. cbn [no_leading_digit] in Hr.
    cbn [span_digits]. apply negb_true_iff in Hr. now rewrite Hr.
  - apply andb_prop in Hd as [Hc Hd]. cbn [span_digits].
    rewrite Hc, (IH Hd Hr). reflexivity.
Qed.

Lemma span_digits_spec s : forall d r,
  span_digits s = (d, r) ->
  s = d +:+ r /\ all_digits d = true /\ no_leading_digit r = true.
Proof.
  induction s as [|c s IH]; cbn [span_digits]; intros d r H.
  - inversion H; subst. auto.
  - destruct (is_digit c) eqn:Hc.
    + destruct (span_digits s) as [d0 r0]. inversion H; subst.
      destruct (IH d0 r eq_refl) as (-> & Hd & Hr).
      cbn [all_digits]. rewrite Hc, Hd. auto.
    + inversion H; subst. cbn [no_leading_digit]. rewrite Hc. auto.
Qed.

Lemma strip_prefix_app p s : strip_prefix p (p +:+ s) = Some s.
Proof.
  induction p as [|c p IH]; rewrite ?str_app_nil, ?str_app_cons;
    cbn [strip_prefix].
  - now destruct s.
  - now rewrite Ascii.eqb_refl.
Qed.

Lemma strip_prefix_spec p : forall s r, strip_prefix p s = Some r -> s = p +:+ r.
Proof.
  induction p as [|c p IH]; intros s r; cbn [strip_prefix].
  - destruct s; intros [= <-]; reflexivity.
  - destruct s as [|b s]; [discriminate|].
    destruct (Ascii.eqb_spec c b) as [->|]; [|discriminate].
    intros H. now rewrite (IH _ _ H).
Qed.

Lemma match_number_app d rest :
  all_digits d = true -> d <> EmptyString -> no_leading_digit rest = true ->
  match_number (d +:+ rest) = Some (int_of_digits d, rest).
Proof.
  intros Hd Hne Hr. unfold match_number. rewrite (span_digits_app d rest Hd Hr).
  destruct d; [contradiction | reflexivity].
Qed.

Lemma match_number_spec s n r :
  match_number s = Some (n, r) ->
  exists d, s = d +:+ r /\ all_digits d = true /\ d <> EmptyString /\
            n = int_of_digits d /\ no_leading_digit r = true.
Proof.
  unfold match_number. destruct (span_digits s) as [d r0] eqn:Hs.
  destruct (span_digits_spec s d r0 Hs) as (-> & Hd & Hr).
  destruct d as [|c d]; [discriminate|]. intros [= <- <-].
  exists (String c d). repeat split; auto; discriminate.
Qed.

Lemma match_dot_spec s r : match_dot s = Some r -> s = "." +:+ r.
Proof.
  unfold match_dot. destruct s as [|c s]; [discriminate|].
  destruct (Ascii.eqb_spec c "."%char) as [->|]; [|discriminate].
  now intros [= <-].
Qed.

(** X9.  [_parse_header_line] accepts every line that starts with the
    magic and three non-empty runs of digits separated by dots, whatever
    follows provided it does not go on with a digit (a line end, a
    carriage return, anything else), and returns the three numbers;
    leading zeros are allowed. *)
Theorem parse_header_line_accepts (d1 d2 d3 rest : bytes) :
  all_digits d1 = true -> d1 <> EmptyString ->
  all_digits d2 = true -> d2 <> EmptyString ->
  all_digits d3 = true -> d3 <> EmptyString ->
  no_leading_digit rest = true ->
  _parse_header_line (ASDF_MAGIC +:+ d1 +:+ "." +:+ d2 +:+ "." +:+ d3 +:+ rest)
  = Ok (int_of_digits d1, int_of_digits d2, int_of_digits d3).
Proof.
  intros H1 N1 H2 N2 H3 N3 Hr. unfold _parse_header_line, re_match_header.
  rewrite strip_prefix_app. cbn [mbind option_bind].
  rewrite (match_number_app d1 _ H1 N1) by reflexivity. cbn [mbind option_bind].
  rewrite str_app_cons, str_app_nil. cbn [match_dot].
  rewrite Ascii.eqb_refl. cbn [mbind option_bind].
  rewrite (match_number_app d2 _ H2 N2) by reflexivity. cbn [mbind option_bind].
  rewrite str_app_cons, str_app_nil. cbn [match_dot].
  rewrite Ascii.eqb_refl. cbn [mbind option_bind].
  rewrite (match_number_app d3 _ H3 N3 Hr). reflexivity.
Qed.

(** X10.  Conversely, a line that [_parse_header_line] accepts is the
    magic, three non-empty runs of digits separated by dots, and a rest
    that does not start with a digit; the numbers returned are the values
    of the three runs. *)
Theorem parse_header_line_sound (line : bytes) (major minor micro : nat) :
  _parse_header_line line = Ok (major, minor, micro) ->
  exists d1 d2 d3 rest,
    line = ASDF_MAGIC +:+ d1 +:+ "." +:+ d2 +:+ "." +:+ d3 +:+ rest /\
    all_digits d1 = true /\ d1 <> EmptyString /\
    all_digits d2 = true /\ d2 <> EmptyString /\
    all_digits d3 = true /\ d3 <> EmptyString /\
    no_leading_digit rest = true /\
    major = int_of_digits d1 /\ minor = int_of_digits d2 /\
    micro = int_of_digits d3.
Proof.
  unfold _parse_header_line, re_match_header.
  destruct (strip_prefix ASDF_MAGIC line) as [r0|] eqn:H0; [|discriminate].
  cbn [mbind option_bind].
  destruct (match_number r0) as [[a r1]|] eqn:Ha; [|discriminate].
  cbn [mbind option_bind].
  destruct (match_dot r1) as [r2|] eqn:Hdot1; [|discriminate].
  cbn [mbind option_bind].
  destruct (match_number r2) as [[b r3]|] eqn:Hb; [|discriminate].
  cbn [mbind option_bind].
  destruct (match_dot r3) as [r4|] eqn:Hdot2; [|discriminate].
  cbn [mbind option_bind].
  destruct (match_number r4) as [[c r5]|] eqn:Hc; [|discriminate].
  cbn [mbind option_bind]. intros [= <- <- <-].
  apply strip_prefix_spec in H0.
  apply match_number_spec in Ha as (d1 & E1 & A1 & N1 & V1 & _).
  apply match_dot_spec in Hdot1.
  apply match_number_spec in Hb as (d2 & E2 & A2 & N2 & V2 & _).
  apply match_dot_spec in Hdot2.
  apply match_number_spec in Hc as (d3 & E3 & A3 & N3 & V3 & Hr).
  exists d1, d2, d3, r5. subst. repeat split; auto.
Qed.

End HeaderMore.

(** *** [UserSet] once it has its [data] *)

Section UsersetMore.
Import Userset Aux.

Definition has_data (s : instance) : Prop :=
  exists d, attrs s !! "data" = Some (PSet d).

Lemma as_sets_raises_TypeError args e :
  as_sets args = Raise e -> exists msg, e = TypeError msg.
Proof.
  induction args as [|a rest IH]; cbn [as_sets]; [discriminate|].
  destruct a; try (intros [= <-]; eauto).
  destruct (as_sets rest); [discriminate|].
  intros [= <-]. now apply IH.
Qed.

Lemma set_op_no_AttributeError m d args :
  is_AttributeError (snd (set_op m d args)) = false.
Proof.
  unfold set_op, one_set, one_hashable, one_key, wrong_arity.
  destruct m; cbn; repeat (case_match; cbn);
    try first [reflexivity | congruence];
    match goal with
    | H : as_sets _ = Raise _ |- _ =>
        apply as_sets_raises_TypeError in H as [? ?]; congruence
    end.
Qed.

Lemma call_keeps_data m s args :
  m <> m_init___ -> has_data s ->
  has_data (fst (call m s args)) /\
  is_AttributeError (snd (call m s args)) = false.
Proof.
  intros Hm [d Hd]. unfold call.
  destruct (accepts m (length args)); cbn [negb];
    [|split; [exists d; exact Hd | reflexivity]].
  assert (match m with
          | m_init___ => init___ s args
          | _ =>
              match getattr s "data" with
              | Raise e => (s, Raise e)
              | Ok (PSet data) =>
                  let '(data', r) := set_op m data args in
                  (setattr s "data" (PSet data'), r)
              | Ok d0 => other_op m s d0 args
              end
          end =
          (setattr s "data" (PSet (fst (set_op m d args))), snd (set_op m d args)))
    as ->.
  { unfold getattr. rewrite Hd.
    destruct m; try contradiction; now destruct (set_op _ d args). }
  cbn [fst snd]. split; [|apply set_op_no_AttributeError].
  eexists. unfold setattr. cbn [attrs]. apply lookup_insert_eq.
Qed.

Lemma run_calls_keep_data ops : forall s,
  Forall (fun op => fst op <> m_init___) ops -> has_data s ->
  has_data (fst (run_calls ops s)) /\
  Forall (fun r => is_AttributeError r = false) (snd (run_calls ops s)).
Proof.
  induction ops as [|[m args] rest IH]; intros s Hops Hs; cbn [run_calls].
  - split; [exact Hs | constructor].
  - inversion Hops as [|? ? Hm Hrest]; subst. cbn [fst] in Hm.
    destruct (call_keeps_data m s args Hm Hs) as [Hs1 Hr].
    destruct (call m s args) as [s1 r]. cbn [fst snd] in *.
    destruct (IH s1 Hrest Hs1) as [Hs2 Hrs].
    destruct (run_calls rest s1) as [s2 rs]. cbn [fst snd] in *.
    split; [exact Hs2 | now constructor].
Qed.

(** X12.  The body of the misspelled initializer does what an
    initializer should: called explicitly, without argument or with a
    set, it binds [data], and from then on no method call raises
    [AttributeError], however many follow and whatever they are given;
    the instance keeps a set as its [data] throughout. *)
Theorem userset_explicit_init_repairs
        (init_args : list pyval) (ops : list (method * list pyval)) :
  (init_args = [] \/ exists d, init_args = [PSet d]) ->
  Forall (fun op => fst op <> m_init___) ops ->
  let s0 := fst (call m_init___ (Instance ∅) init_args) in
  snd (call m_init___ (Instance ∅) init_args) = Ok PNone /\
  has_data s0 /\
  has_data (fst (run_calls ops s0)) /\
  Forall (fun r => is_AttributeError r = false) (snd (run_calls ops s0)).
Proof.
  intros Hargs Hops s0.
  assert (snd (call m_init___ (Instance ∅) init_args) = Ok PNone /\ has_data s0)
    as [Hok Hs0].
  { subst s0. destruct Hargs as [->|[d ->]]; (split; [reflexivity|]);
      eexists; cbn; apply lookup_insert_eq. }
  split; [exact Hok|]. split; [exact Hs0|].
  now apply run_calls_keep_data.
Qed.

End UsersetMore.

(** *** [update] and [write_to]: what stays behind *)

Section EngineMore.
Context {tree node fdh reader Env : Type}.
Context (C : Collaborators tree node fdh reader Env).

Lemma try_finally_inv {A} (body : Asdf.M tree fdh Env A)
      (fin : Asdf.M tree fdh Env unit) w w' r :
  try_finally body fin w = (w', r) ->
  exists w1 r1, body w = (w1, r1) /\
    ((fin w1 = (w', Ok tt) /\ r = r1) \/
     (exists e, fin w1 = (w', Raise e) /\ r = Raise e)).
Proof.
  unfold try_finally. destruct (body w) as [w1 r1].
  destruct (fin w1) as [w2 [[]|e]] eqn:Hf; intros H; inversion H; subst;
    eexists _, _; split; eauto.
Qed.

Lemma post_write_unbinds fd w w' :
  _post_write C fd w = (w', Ok tt) ->
  _all_array_storage (self w') = None /\
  _all_array_compression (self w') = None /\
  _auto_inline (self w') = None.
Proof.
  unfold _post_write. intros H.
  split_bind H w1 s Hs. split_bind H w2 u Hu.
  unfold modify_self in H. inversion H; subst. cbn. auto.
Qed.

(** X13.  When [update] returns (and external storage was not asked for
    all arrays), the three options that [_pre_write] had bound on the
    engine for the time of the write are unbound again. *)
Theorem update_unbinds_write_options
        (st co : option string) (ai : option nat) (p : pad) (rd : bool)
        (w w' : World tree fdh Env) :
  update C st co ai p rd w = (w', Ok tt) ->
  st <> Some "external" ->
  _all_array_storage (self w') = None /\
  _all_array_compression (self w') = None /\
  _auto_inline (self w') = None.
Proof.
  unfold update. intros H Hst.
  split_bind H w0 s Hs.
  destruct (_fd s) as [fd|]; [|discriminate].
  split_bind H w1 wr Hwr.
  destruct wr; cbn [negb] in H; [|discriminate].
  rewrite bool_decide_eq_false_2 in H by assumption.
  split_bind H w2 sk Hsk.
  destruct sk; cbn [negb] in H; [|discriminate].
  split_bind H w3 u Hpre.
  apply try_finally_inv in H as (w4 & r4 & _ & [[Hfin _]|(e & _ & He)]);
    [|discriminate].
  eapply post_write_unbinds; eauto.
Qed.

(** X14.  When no block carries a prior offset, [update] writes the file
    serially from its start and truncates it where the write stopped,
    under the [finally] that calls [_post_write]: the layout computation
    and the random-access writer take no part, whatever they are. *)
Theorem update_without_reusable_blocks
        (layout : nat -> pad -> nat -> Asdf.M tree fdh Env bool)
        (random_access : fdh -> Asdf.M tree fdh Env unit)
        (st co : option string) (ai : option nat) (p : pad) (rd : bool)
        (fd : fdh) (w w1 w2 w3 w4 w5 : World tree fdh Env) :
  _fd (self w) = Some fd ->
  fd_writable C fd w = (w1, Ok true) ->
  st <> Some "external" ->
  fd_seekable C fd w1 = (w2, Ok true) ->
  _pre_write C fd st co ai w2 = (w3, Ok tt) ->
  fd_seek C fd 0 w3 = (w4, Ok tt) ->
  has_blocks_with_offset C w4 = (w5, Ok false) ->
  update (Spec.with_planner C (has_blocks_with_offset C) layout random_access)
         st co ai p rd w
  = try_finally (serial_fallback C fd p rd) (_post_write C fd) w5.
Proof.
  intros Hfd Hwr Hst Hsk Hpre Hseek Hreuse. unfold update.
  rewrite (bind_ok get_self _ w w (self w)) by reflexivity.
  rewrite Hfd.
  rewrite (bind_ok _ _ _ _ _ (Hwr : fd_writable (Spec.with_planner C _ layout random_access) fd w = _)).
  cbn [negb]. rewrite bool_decide_eq_false_2 by assumption.
  rewrite (bind_ok _ _ _ _ _ (Hsk : fd_seekable (Spec.with_planner C _ layout random_access) fd w1 = _)).
  cbn [negb].
  rewrite (bind_ok _ _ _ _ _ (Hpre : _pre_write (Spec.with_planner C _ layout random_access) fd st co ai w2 = _)).
  rewrite (try_finally_bind_ok _ _ _ _ _ _
             (Hseek : fd_seek (Spec.with_planner C _ layout random_access) fd 0 w3 = _)).
  rewrite (try_finally_bind_ok _ _ _ _ _ _
             (Hreuse : has_blocks_with_offset
                         (Spec.with_planner C _ layout random_access) w4 = _)).
  reflexivity.
Qed.

Lemma count_array_refs_bounds nodes : forall acc w w' r,
  count_array_refs C nodes acc w = (w', Ok r) ->
  (acc <= r <= acc + length (List.filter (is_ndarray C) nodes))%nat.
Proof.
  induction nodes as [|n rest IH]; intros acc w w' r H; cbn [count_array_refs] in H.
  - inversion H; subst. cbn. lia.
  - cbn [List.filter]. destruct (is_ndarray C n).
    + split_bind H w1 st Hst. apply IH in H. cbn [length].
      destruct (String.eqb st "internal"); lia.
    + now apply IH in H.
Qed.

(** X15.  Whatever the block manager answers, the size [update] plans
    the header with is at least the position reached in the in-memory
    buffer, and exceeds it by at most [MAX_BLOCKS_DIGITS] for each
    occurrence of an array in the tree as it is once [_write_tree] has
    returned. *)
Theorem serialized_tree_size_bounds
        (rd : bool) (w w' : World tree fdh Env) (size : nat) :
  serialized_tree_size C rd w = (w', Ok size) ->
  exists (buf : fdh) (w1 w2 w3 : World tree fdh Env) (pos : nat),
    BytesIO C w = (w1, Ok buf) /\
    _write_tree C (_tree (self w1)) buf (PadBool false) rd w1 = (w2, Ok tt) /\
    fd_tell C buf w3 = (w', Ok pos) /\
    (pos <= size)%nat /\
    (size <= pos + MAX_BLOCKS_DIGITS C
                   * length (List.filter (is_ndarray C)
                                         (iter_tree C (_tree (self w2)))))%nat.
Proof.
  unfold serialized_tree_size. intros H.
  split_bind H w1 buf Hbuf.
  split_bind H w1' s Hs.
  split_bind H w2 u Hwrite.
  split_bind H w2' s' Hs'.
  split_bind H w3 r Hcount.
  split_bind H w4 pos Htell.
  unfold ret in H. inversion H; subst.
  unfold get_self in Hs, Hs'. inversion Hs; inversion Hs'; subst.
  apply count_array_refs_bounds in Hcount. destruct u.
  exists buf, w1', w2', w3, pos.
  split; [exact Hbuf|]. split; [exact Hwrite|]. split; [exact Htell|].
  split; nia.
Qed.

End EngineMore.

(** *** The validator's walk and the visited set *)

Section WalkMore.
Import Schema.
Context {schema : Type}.
Context (tag_to_schema_resolver : string -> string).
Context (load_schema : string -> option schema).
Context (orig_iter_errors : (oid -> schema -> run) -> store -> oid -> schema -> run).

Local Abbreviation walk :=
  (iter_errors schema tag_to_schema_resolver load_schema orig_iter_errors).

Lemma and_then_finished (a b : run) (errs : list string) :
  and_then a b = (errs, true) ->
  exists ea eb, a = (ea, true) /\ b = (eb, true) /\ errs = ea ++ eb.
Proof.
  unfold and_then. destruct a as [ea [|]], b as [eb bb]; cbn [fst snd].
  - intros [= <- ->]. eauto.
  - discriminate.
Qed.

Lemma for_each_sublist {A} (f g : A -> run) (l : list A) :
  (forall x e, f x = (e, true) -> exists e', g x = (e', true) /\ e' `sublist_of` e) ->
  forall errs, for_each f l = (errs, true) ->
  exists errs', for_each g l = (errs', true) /\ errs' `sublist_of` errs.
Proof.
  intros Hfg. induction l as [|x l IH]; intros errs H; cbn [for_each] in H |- *.
  - inversion H; subst. exists []. split; reflexivity.
  - apply and_then_finished in H as (ea & eb & Hx & Hl & ->).
    destruct (Hfg x ea Hx) as (ea' & -> & Ha).
    destruct (IH eb Hl) as (eb' & -> & Hb).
    exists (ea' ++ eb'). split; [reflexivity|]. now apply sublist_app.
Qed.

(** X16.  A larger visited set only suppresses: with more identities
    taken as visited, the walk still ends within the same budget, and the
    errors it yields are a subsequence of the ones it yielded before. *)
Theorem walk_larger_seen_suppresses fuel :
  forall (h : store) (i : oid) (sch : option schema) (seen seen' : gset oid) errs,
    seen ⊆ seen' ->
    walk fuel h i sch seen = finished errs ->
    exists errs',
      walk fuel h i sch seen' = finished errs' /\ errs' `sublist_of` errs.
Proof.
  unfold finished.
  induction fuel as [|fuel IH]; intros h i sch seen seen' errs Hsub H;
    [discriminate|].
  simpl in *.
  destruct (bool_decide (i ∈ seen')) eqn:Hin'.
  { exists []. split; [reflexivity | apply sublist_nil_l]. }
  destruct (bool_decide (i ∈ seen)) eqn:Hin.
  { apply bool_decide_eq_true in Hin. apply bool_decide_eq_false in Hin'.
    exfalso. apply Hin'. now apply Hsub. }
  destruct (h !! i) as [n|]; [|exists errs; split; [exact H | reflexivity]].
  destruct (looks_like_reference n); [exists errs; split; [exact H | reflexivity]|].
  destruct sch as [s|]; [exists errs; split; [exact H | reflexivity]|].
  apply and_then_finished in H as (et & ec & Htag & Hch & ->).
  rewrite Htag.
  destruct (for_each_sublist
              (fun val => walk fuel h val None (seen ∪ {[i]}))
              (fun val => walk fuel h val None (seen' ∪ {[i]}))
              (children n)) with (errs := ec) as (ec' & Hch' & Hsl).
  - intros x e Hx. apply (IH h x None (seen ∪ {[i]})); [set_solver | exact Hx].
  - exact Hch.
  - rewrite Hch'. exists (et ++ ec'). split; [reflexivity|].
    apply sublist_app; [reflexivity | exact Hsl].
Qed.

End WalkMore.

(** *** The engine's external files and [close] *)

Section ExternalFacts.
Import External.
Context {tree fdh ext Env0 : Type}.
Context (K : Callees fdh ext Env0).

Local Abbreviation W := (World tree fdh (Rest ext Env0)).

Lemma resolve_uri_run (u : string) (w : W) :
  resolve_uri K u w =
  (w, match resolve_uri_fn K (uri_of K w) u with
      | Ok r => Ok r
      | Raise e => Raise e
      end).
Proof.
  unfold resolve_uri, uri, bind. now destruct (resolve_uri_fn K (uri_of K w) u).
Qed.

(** X17.  A URI whose base resolves to the empty string or to the
    engine's own URI is the engine itself: [open_external] returns the
    host, opens nothing and caches nothing. *)
Theorem open_external_of_self (u : string) (fill : bool) (w : W) (r : string) :
  resolve_uri_fn K (uri_of K w) (get_base_uri K u) = Ok r ->
  r = EmptyString \/ uri_of K w = Some r ->
  open_external K u fill w = (w, Ok Host).
Proof.
  intros Hr Hself. unfold open_external, bind.
  rewrite resolve_uri_run, Hr.
  destruct (String.eqb_spec r "") as [->|Hne]; [reflexivity|].
  destruct Hself as [->|Hown]; [contradiction|].
  unfold uri. rewrite Hown. cbn [orb].
  now rewrite bool_decide_eq_true_2.
Qed.

Lemma open_external_inv (u : string) (fill : bool) (w w1 : W) (e : ext) :
  open_external K u fill w = (w1, Ok (Other e)) ->
  exists r,
    resolve_uri_fn K (uri_of K w) (get_base_uri K u) = Ok r /\
    r <> EmptyString /\ uri_of K w <> Some r /\
    _external_asdf_by_uri (env w1) !! r = Some e /\
    self w1 = self w /\ _uri (env w1) = _uri (env w).
Proof.
  unfold open_external, bind. rewrite resolve_uri_run.
  destruct (resolve_uri_fn K (uri_of K w) (get_base_uri K u)) as [r|x];
    [|discriminate].
  destruct (String.eqb_spec r "") as [->|Hne]; [discriminate|].
  unfold uri. cbn [orb].
  destruct (bool_decide (uri_of K w = Some r)) eqn:Hown; [discriminate|].
  apply bool_decide_eq_false in Hown.
  destruct (_external_asdf_by_uri (env w) !! r) as [a|] eqn:Hc.
  - intros [= <- <-]. exists r. repeat split; auto.
  - unfold on_outer, set_cache, ret.
    destruct (open_file K r fill (outer (env w))) as [o [a|x]]; [|discriminate].
    cbn. intros [= <- <-]. exists r. cbn.
    rewrite lookup_insert_eq. repeat split; auto.
Qed.

(** X18.  Each external file is opened once: after [open_external] has
    returned another engine, a call for any URI with the same base (the
    fragment may differ) returns that same engine, opens nothing and
    leaves everything as it is, as long as the engine's own URI is the
    same. *)
Theorem open_external_caches
        (u u' : string) (fill fill' : bool) (w w1 : W) (e : ext) :
  open_external K u fill w = (w1, Ok (Other e)) ->
  get_base_uri K u' = get_base_uri K u ->
  uri_of K w1 = uri_of K w ->
  open_external K u' fill' w1 = (w1, Ok (Other e)).
Proof.
  intros H Hbase Huri.
  destruct (open_external_inv u fill w w1 e H) as (r & Hr & Hne & Hown & Hc & _).
  unfold open_external, bind. rewrite resolve_uri_run, Hbase, Huri, Hr.
  destruct (String.eqb_spec r "") as [->|_]; [contradiction|].
  unfold uri. cbn [orb]. rewrite Huri.
  rewrite bool_decide_eq_false_2 by assumption.
  now rewrite Hc.
Qed.

(** X19.  When [open_external] raises (the URI does not resolve, or the
    file cannot be opened), nothing was cached and no attribute of the
    engine has changed. *)
Theorem open_external_failure_caches_nothing
        (u : string) (fill : bool) (w w1 : W) (x : exn) :
  open_external K u fill w = (w1, Raise x) ->
  self w1 = self w /\
  _uri (env w1) = _uri (env w) /\
  _external_asdf_by_uri (env w1) = _external_asdf_by_uri (env w).
Proof.
  unfold open_external, bind. rewrite resolve_uri_run.
  destruct (resolve_uri_fn K (uri_of K w) (get_base_uri K u)) as [r|x0].
  2:{ intros [= <- <-]. auto. }
  destruct (String.eqb_spec r "") as [->|Hne]; [discriminate|].
  unfold uri. cbn [orb].
  destruct (bool_decide (uri_of K w = Some r)); [discriminate|].
  destruct (_external_asdf_by_uri (env w) !! r) as [a|]; [discriminate|].
  unfold on_outer, set_cache, ret.
  destruct (open_file K r fill (outer (env w))) as [o [a|x0]]; [discriminate|].
  intros [= <- <-]. cbn. auto.
Qed.

Lemma close_all_frame l : forall (w w' : W) r,
  close_all K l w = (w', r) ->
  self w' = self w /\ _uri (env w') = _uri (env w) /\
  _external_asdf_by_uri (env w') = _external_asdf_by_uri (env w).
Proof.
  induction l as [|e rest IH]; intros w w' r; cbn [close_all].
  - intros [= <- <-]. auto.
  - unfold bind, on_outer.
    destruct (external_close K e (outer (env w))) as [o [[]|x]].
    + intros H. apply IH in H. cbn in H. exact H.
    + intros [= <- <-]. cbn. auto.
Qed.

(** X20.  When [close] returns, the engine holds no file and its cache of
    external files is empty; its tree is the one it had. *)
Theorem close_releases (w w' : W) :
  close K w = (w', Ok tt) ->
  _fd (self w') = None /\
  _external_asdf_by_uri (env w') = ∅ /\
  _tree (self w') = _tree (self w) /\
  _uri (env w') = _uri (env w).
Proof.
  unfold close. intros H.
  split_bind H w0 s Hs. unfold get_self in Hs. inversion Hs; subst.
  split_bind H w1 u1 Hfd.
  assert (_fd (self w1) = None /\ _tree (self w1) = _tree (self w0) /\
          _uri (env w1) = _uri (env w0)) as (Hfd1 & Ht1 & Hu1).
  { destruct (_fd (self w0)) as [fd|] eqn:Hf.
    - split_bind Hfd w2 u2 Hc. unfold on_outer in Hc.
      destruct (file_close K fd (outer (env w0))) as [o [[]|x]];
        inversion Hc; subst.
      unfold modify_self in Hfd. inversion Hfd; subst. cbn. auto.
    - unfold ret in Hfd. inversion Hfd; subst. auto. }
  split_bind H w2 u2 Hall. apply close_all_frame in Hall as (Hs2 & Hu2 & _).
  split_bind H w3 u3 Hclear. unfold set_cache in Hclear. inversion Hclear; subst.
  unfold on_outer in H. cbn in H.
  destruct (blocks_close K (outer (env w2))) as [o [[]|x]]; inversion H; subst.
  cbn. rewrite Hs2, Hu2. auto.
Qed.

(** X21.  Closing again closes nothing twice: after [close] has
    returned, a second [close] calls neither the file's [close] nor that
    of any external file, and does no more than close the block manager
    once more. *)
Theorem close_twice (w w1 : W) :
  close K w = (w1, Ok tt) ->
  close K w1 = on_outer (blocks_close K) w1.
Proof.
  intros H. apply close_releases in H as (Hfd & Hc & _).
  unfold close, bind, get_self. rewrite Hfd. unfold ret.
  rewrite Hc, map_to_list_empty. cbn [fmap list_fmap close_all]. unfold ret, set_cache.
  destruct w1 as [s [u c o]]. cbn in *. subst c. reflexivity.
Qed.

(** X22.  When closing the file raises, [close] raises the same and
    stops there: the engine still holds the file, the cache keeps its
    entries, and no external file was closed. *)
Theorem close_stops_when_file_close_raises
        (w : W) (fd : fdh) (o : Env0) (x : exn) :
  _fd (self w) = Some fd ->
  file_close K fd (outer (env w)) = (o, Raise x) ->
  close K w =
  (mkWorld (self w) (mkRest (_uri (env w)) (_external_asdf_by_uri (env w)) o),
   Raise x).
Proof.
  intros Hfd Hc. unfold close, bind, get_self, on_outer. rewrite Hfd, Hc.
  reflexivity.
Qed.

End ExternalFacts.

(* ===================================================================== *)
(** ** The further properties at concrete inputs                          *)
(* ===================================================================== *)

Section ConcreteMore.
Import Sample Cases External ExternalCases Aux.

Lemma remove_default_lookup_witness :
  Spec.value_get "unit"
    (fst (Schema.validate_remove_default no_errors props inst_count)) = None /\
  Spec.value_get "count"
    (fst (Schema.validate_remove_default no_errors props inst_count)) = None /\
  Spec.value_get "name"
    (fst (Schema.validate_remove_default no_errors props inst_count))
  = Some (Schema.VStr "x").
Proof.
  pose proof (remove_default_lookup no_errors props
                [("count", Schema.VBool true); ("name", Schema.VStr "x")])
    as H.
  split; [|split].
  - apply (proj1 (H "unit")). reflexivity.
  - apply (proj2 (H "count") (Schema.VBool true)); reflexivity.
  - apply (proj2 (H "name") (Schema.VStr "x")); reflexivity.
Defined.

Lemma remove_default_idempotent_witness :
  fst (Schema.validate_remove_default no_errors props
         (fst (Schema.validate_remove_default no_errors props inst_count)))
  = Schema.VDict [("name", Schema.VStr "x")].
Proof.
  unfold inst_count.
  rewrite (remove_default_idempotent no_errors props
             [("count", Schema.VBool true); ("name", Schema.VStr "x")] eq_refl).
  reflexivity.
Defined.

Lemma remove_after_fill_restores_absence_witness :
  Spec.value_get "count"
    (fst (Schema.validate_remove_default no_errors props
            (fst (Schema.validate_fill_default no_errors props
                    (Schema.VDict [("name", Schema.VStr "x")])))))
  = None.
Proof.
  apply (remove_after_fill_restores_absence no_errors props
           [("name", Schema.VStr "x")] "count" (Schema.VInt 1));
    try reflexivity. discriminate.
Defined.


(** The value that comes back for [count] is the integer [1], not the
    [True] that was there. *)
Example fill_after_remove_changes_bool_to_int :
  Spec.value_get "count"
    (fst (Schema.validate_fill_default no_errors props
            (fst (Schema.validate_remove_default no_errors props inst_count))))
  = Some (Schema.VInt 1).
Proof. reflexivity. Qed.

Lemma parse_header_line_accepts_witness :
  _parse_header_line
    (ASDF_MAGIC +:+ "00" +:+ "." +:+ "1" +:+ "." +:+ "10"
     +:+ String (ascii_of_nat 13) LF)
  = Ok (0, 1, 10)%nat.
Proof.
  apply (parse_header_line_accepts "00" "1" "10" (String (ascii_of_nat 13) LF));
    try reflexivity; discriminate.
Defined.

Lemma parse_header_line_sound_witness :
  exists d1 d2 d3 rest,
    trailing_bytes = ASDF_MAGIC +:+ d1 +:+ "." +:+ d2 +:+ "." +:+ d3 +:+ rest /\
    all_digits d1 = true /\ d1 <> EmptyString /\
    all_digits d2 = true /\ d2 <> EmptyString /\
    all_digits d3 = true /\ d3 <> EmptyString /\
    no_leading_digit rest = true /\
    0%nat = int_of_digits d1 /\ 1%nat = int_of_digits d2 /\
    0%nat = int_of_digits d3.
Proof.
  apply (parse_header_line_sound trailing_bytes 0 1 0). reflexivity.
Defined.

Lemma userset_explicit_init_repairs_witness :
  let ops := [(Userset.m_add, [Userset.PInt 2]);
              (Userset.m_remove, [Userset.PInt 5]);
              (Userset.m_len, [])] in
  let s0 := fst (Userset.call Userset.m_init___ (Userset.Instance ∅)
                              [Userset.PSet {[Some 1%Z]}]) in
  snd (Userset.call Userset.m_init___ (Userset.Instance ∅)
                    [Userset.PSet {[Some 1%Z]}]) = Ok Userset.PNone /\
  has_data s0 /\
  has_data (fst (run_calls ops s0)) /\
  Forall (fun r => is_AttributeError r = false) (snd (run_calls ops s0)).
Proof.
  apply (userset_explicit_init_repairs [Userset.PSet {[Some 1%Z]}]).
  - right. eexists. reflexivity.
  - repeat constructor; discriminate.
Defined.

(** What those three calls answer: [add] returns [None], [remove] of an
    absent element raises [KeyError], [len] counts two elements. *)
Example userset_calls_after_init :
  snd (run_calls [(Userset.m_add, [Userset.PInt 2]);
                  (Userset.m_remove, [Userset.PInt 5]);
                  (Userset.m_len, [])]
         (fst (Userset.call Userset.m_init___ (Userset.Instance ∅)
                            [Userset.PSet {[Some 1%Z]}])))
  = [Ok Userset.PNone; Raise (KeyError "element not in set");
     Ok (Userset.PInt 2)].
Proof. vm_compute. reflexivity. Qed.

Lemma update_unbinds_write_options_witness :
  let w' := fst (update collaborators (Some "inline") None (Some 10%nat)
                        (PadBool false) true writable_world) in
  update collaborators (Some "inline") None (Some 10%nat) (PadBool false) true
         writable_world = (w', Ok tt) /\
  _all_array_storage (self w') = None /\
  _all_array_compression (self w') = None /\
  _auto_inline (self w') = None.
Proof.
  intros w'.
  assert (update collaborators (Some "inline") None (Some 10%nat) (PadBool false)
                 true writable_world = (w', Ok tt)) as H
      by (vm_compute; reflexivity).
  split; [exact H|].
  apply (update_unbinds_write_options collaborators _ _ _ _ _ _ _ H).
  discriminate.
Defined.

Lemma update_without_reusable_blocks_witness :
  let w3 := fst (_pre_write collaborators 1%nat None None None writable_world) in
  _pre_write collaborators 1%nat None None None writable_world = (w3, Ok tt) /\
  has_blocks_with_offset collaborators w3 = (w3, Ok false) /\
  update (Spec.with_planner collaborators (has_blocks_with_offset collaborators)
            (fun _ _ _ => raise NotOpen) (fun _ => raise NotOpen))
         None None None (PadBool false) true writable_world
  = try_finally (serial_fallback collaborators 1%nat (PadBool false) true)
                (_post_write collaborators 1%nat) w3.
Proof.
  intros w3.
  assert (_pre_write collaborators 1%nat None None None writable_world = (w3, Ok tt))
    as Hpre by (vm_compute; reflexivity).
  assert (has_blocks_with_offset collaborators w3 = (w3, Ok false))
    as Hreuse by (vm_compute; reflexivity).
  split; [exact Hpre|]. split; [exact Hreuse|].
  apply (update_without_reusable_blocks collaborators _ _ None None None
           (PadBool false) true 1%nat
           writable_world writable_world writable_world w3 w3 w3);
    try reflexivity; try assumption; try discriminate.
Defined.

Lemma serialized_tree_size_bounds_witness :
  exists (buf : nat) (w1 w2 w3 : SWorld) (pos : nat),
    BytesIO collaborators reuse_world = (w1, Ok buf) /\
    _write_tree collaborators (_tree (self w1)) buf (PadBool false) true w1
      = (w2, Ok tt) /\
    fd_tell collaborators buf w3
      = (fst (serialized_tree_size collaborators true reuse_world), Ok pos) /\
    (pos <= 62)%nat /\
    (62 <= pos + MAX_BLOCKS_DIGITS collaborators
                 * length (List.filter (is_ndarray collaborators)
                             (iter_tree collaborators (_tree (self w2)))))%nat.
Proof.
  apply (serialized_tree_size_bounds collaborators true reuse_world).
  vm_compute. reflexivity.
Defined.

Lemma walk_larger_seen_suppresses_witness :
  exists errs',
    toy_iter_errors 4 cyclic_store 0%nat None {[2%nat]} = Schema.finished errs' /\
    errs' `sublist_of` ["schema:tag:example/number"].
Proof.
  apply (walk_larger_seen_suppresses toy_resolver toy_load toy_orig 4
           cyclic_store 0%nat None ∅ {[2%nat]}).
  - apply empty_subseteq.
  - vm_compute. reflexivity.
Defined.

Lemma open_external_of_self_witness :
  open_external callees "#/data" true host = (host, Ok Host).
Proof.
  apply (open_external_of_self callees "#/data" true host "main.asdf").
  - reflexivity.
  - right. reflexivity.
Defined.

Lemma open_external_caches_witness :
  open_external callees "flat.asdf#/data" true host = (host_with_flat, Ok (Other 0%nat)) /\
  open_external callees "flat.asdf#/other" false host_with_flat
  = (host_with_flat, Ok (Other 0%nat)).
Proof.
  assert (open_external callees "flat.asdf#/data" true host
          = (host_with_flat, Ok (Other 0%nat))) as H by (vm_compute; reflexivity).
  split; [exact H|].
  apply (open_external_caches callees "flat.asdf#/data" "flat.asdf#/other"
           true false host host_with_flat 0%nat H); reflexivity.
Defined.

Lemma open_external_failure_caches_nothing_witness :
  let w1 := fst (open_external callees "missing.asdf" true host_with_flat) in
  self w1 = self host_with_flat /\
  _uri (env w1) = _uri (env host_with_flat) /\
  _external_asdf_by_uri (env w1) = _external_asdf_by_uri (env host_with_flat).
Proof.
  intros w1.
  apply (open_external_failure_caches_nothing callees "missing.asdf" true
           host_with_flat w1 (IOError "No such file or directory")).
  vm_compute. reflexivity.
Defined.

Lemma close_releases_witness :
  let w' := fst (close callees host_with_flat) in
  _fd (self w') = None /\
  _external_asdf_by_uri (env w') = ∅ /\
  _tree (self w') = _tree (self host_with_flat) /\
  _uri (env w') = _uri (env host_with_flat).
Proof.
  intros w'. apply (close_releases callees host_with_flat w').
  vm_compute. reflexivity.
Defined.

Lemma close_twice_witness :
  let w1 := fst (close callees host_with_flat) in
  close callees w1 = on_outer (blocks_close callees) w1 /\
  outer (env (fst (close callees w1)))
  = ["open flat.asdf"; "close file"; "close external"; "close blocks";
     "close blocks"].
Proof.
  intros w1.
  assert (close callees w1 = on_outer (blocks_close callees) w1) as H.
  { apply (close_twice callees host_with_flat w1). vm_compute. reflexivity. }
  split; [exact H|]. vm_compute. reflexivity.
Defined.

Lemma close_stops_when_file_close_raises_witness :
  close callees_failing_close host_with_flat =
  (mkWorld (self host_with_flat)
           (mkRest (_uri (env host_with_flat))
                   (_external_asdf_by_uri (env host_with_flat))
                   ["open flat.asdf"; "close file"]),
   Raise (IOError "Input/output error")).
Proof.
  apply (close_stops_when_file_close_raises callees_failing_close
           host_with_flat 1%nat); reflexivity.
Defined.

End ConcreteMore.
